(** * efc: the postfix (RPN) evaluation engine of the Excel formula calculator

    A shallow embedding of
    - [efc/utils.py]: the column codec ([col_str_to_index],
      [col_index_to_str]) and the cursor sequence [Array];
    - [efc/rpn/functions.py]: [add_func], [divide_func], [sum_func];
    - [efc/rpn_builder/parser/operands.py]: the operand classes, the
      error taxonomy, [SetOperand] and [CellRangeOperand.get_iter];
    - [efc/rpn_builder/rpn.py]: [RPN.calc] and [RPN.handle_result].

    Plain Python data is a [pyval], the operands and the tokens of a
    postfix sequence are [pyobj]s; a function that may raise returns an
    [outcome]; [int] is [Z]; [float] is the kernel's binary64 [float];
    [str] is [string]; a [list] is a [list]; the [defaultdict] of a set
    operand is a [gmap]. *)

From Stdlib Require Import ZArith String Ascii List Floats Lia.
From stdpp Require Import base option list gmap strings sorting.

#[local] Set Warnings "-register-all".
#[local] Open Scope Z_scope.

(** ** Exceptions and results *)

(** The classes of operand that are also exceptions
    ([ErrorOperand] and its subclasses in operands.py). *)
Inductive ErrorClass :=
| ErrorOperandCls
| ValueErrorOperandCls
| WorksheetNotExistCls
| NamedRangeNotExistCls
| ZeroDivisionErrorOperandCls
| NotFoundErrorOperandCls
| FunctionNotSupportedCls.

Definition code (c : ErrorClass) : Z :=
  match c with
  | ErrorOperandCls => 300
  | ValueErrorOperandCls => 301
  | WorksheetNotExistCls => 302
  | NamedRangeNotExistCls => 303
  | ZeroDivisionErrorOperandCls => 304
  | NotFoundErrorOperandCls => 305
  | FunctionNotSupportedCls => 306
  end.

(** The double quote of the message templates. *)
Definition dquote : string := String (ascii_of_nat 34) EmptyString.

Definition msg (c : ErrorClass) : string :=
  match c with
  | ErrorOperandCls => "Unknown error"
  | ValueErrorOperandCls => "Cell value error"
  | WorksheetNotExistCls => "Worksheet does not exist"
  | NamedRangeNotExistCls =>
      "Named range " +:+ dquote +:+ "{name}" +:+ dquote +:+ " does not exist"
  | ZeroDivisionErrorOperandCls => "Zero division"
  | NotFoundErrorOperandCls => "Result not found"
  | FunctionNotSupportedCls =>
      "Function " +:+ dquote +:+ "{f_name}" +:+ dquote
      +:+ " not found among available functions"
  end.

Definition string_value (c : ErrorClass) : string :=
  match c with
  | ErrorOperandCls => "#ERROR!"
  | ValueErrorOperandCls => "#VALUE!"
  | WorksheetNotExistCls => "#REF!"
  | NamedRangeNotExistCls => "#NAME?"
  | ZeroDivisionErrorOperandCls => "#DIV/0!"
  | NotFoundErrorOperandCls => "#VALUE!"
  | FunctionNotSupportedCls => "#NAME?"
  end.

(** The data source, an injected collaborator.  Of its interface the code
    embedded here calls only the four bounds of a worksheet, which
    [CellRangeOperand.get_iter] uses for an open-ended range. *)
Record DataSource := {
  min_row : option string -> Z;
  max_row : option string -> Z;
  min_column : option string -> Z;
  max_column : option string -> Z;
}.

(** The instance state of an [ErrorOperand]: [formula] (set by
    [ErrorOperand.__init__], [None] unless given), [ws_name] and [source]
    (set by [OperandLikeObject.__init__]) and the [name] / [f_name] that
    [NamedRangeNotExist] and [FunctionNotSupported] carry. *)
Record ErrorOperand := {
  err_class : ErrorClass;
  err_formula : option string;
  err_ws_name : option string;
  err_source : option DataSource;
  err_name : option string;
}.

(** [ValueErrorOperand()] and [ZeroDivisionErrorOperand()]: no argument,
    so every attribute keeps its default. *)
Definition new_error (c : ErrorClass) : ErrorOperand :=
  {| err_class := c; err_formula := None; err_ws_name := None;
     err_source := None; err_name := None |}.

(** What a call can raise.  A builtin constructor stands for the class and
    its subclasses, as an [except] clause sees it. *)
Inductive exn :=
| TypeError
| ValueError
| ZeroDivisionError
| OverflowError
| IndexError
| AttributeError
| StopIteration
| OperandsMissing (f_name formula : string)
| RaisedOperand (err : ErrorOperand)
| OtherFault (name : string).

Inductive outcome (A : Type) :=
| Ok (a : A)
| Raise (e : exn).
Arguments Ok {A} a.
Arguments Raise {A} e.

#[global] Instance outcome_ret : MRet outcome := fun A a => Ok a.
#[global] Instance outcome_fmap : FMap outcome := fun A B f m =>
  match m with
  | Ok a => Ok (f a)
  | Raise e => Raise e
  end.
#[global] Instance outcome_bind : MBind outcome := fun A B f m =>
  match m with
  | Ok a => f a
  | Raise e => Raise e
  end.

(** ** Python values and objects *)

(** Plain data: what a cell holds and what the functions of the table
    take and return once the operands are resolved. *)
Inductive pyval :=
| PNone
| PBool (b : bool)
| PInt (z : Z)
| PFloat (f : float)
| PStr (s : string)
| PList (l : list pyval).

(** What a postfix sequence and the result stack hold: plain data, the
    operands of operands.py and the operation tokens.  Objects are
    modelled by their state; the postfix sequences built by the tokenizer
    hold distinct objects. *)
Inductive pyobj :=
| Plain (v : pyval)
(* operands.py *)
| SimpleOperand (value : pyval) (ws_name : option string)
    (source : option DataSource)
| SingleCellOperand (row column : Z) (ws_name : option string)
    (source : option DataSource)
| CellRangeOperand (row1 column1 row2 column2 : option Z)
    (ws_name : option string) (source : option DataSource)
| NamedRangeOperand (name : string) (ws_name : option string)
    (source : option DataSource)
| CellSetOperand (ws_name : option string) (source : option DataSource)
    (_items : gmap Z (list pyobj))
| SimpleSetOperand (ws_name : option string) (source : option DataSource)
    (_items : gmap Z (list pyobj))
| RPNOperand (formula : string) (rpn : list pyobj)
    (ws_name : option string) (source : option DataSource)
| Error (err : ErrorOperand)
(* operations.py: an operator or function token *)
| Operation (f_name : string) (operands_count : Z).

(** [isinstance(o, OperandLikeObject)] *)
Definition is_OperandLikeObject (o : pyobj) : bool :=
  match o with
  | SimpleOperand _ _ _ | SingleCellOperand _ _ _ _
  | CellRangeOperand _ _ _ _ _ _ | NamedRangeOperand _ _ _
  | CellSetOperand _ _ _ | SimpleSetOperand _ _ _ | RPNOperand _ _ _ _
  | Error _ => true
  | _ => false
  end.

(** [isinstance(o, Operation)] *)
Definition is_Operation (o : pyobj) : bool :=
  match o with
  | Operation _ _ => true
  | _ => false
  end.

(** [isinstance(o, ErrorOperand)] *)
Definition is_ErrorOperand (o : pyobj) : bool :=
  match o with
  | Error _ => true
  | _ => false
  end.

(** [isinstance(o, SingleCellOperand)] *)
Definition is_SingleCellOperand (o : pyobj) : bool :=
  match o with
  | SingleCellOperand _ _ _ _ => true
  | _ => false
  end.

(** [isinstance(o, SimpleOperand)] *)
Definition is_SimpleOperand (o : pyobj) : bool :=
  match o with
  | SimpleOperand _ _ _ => true
  | _ => false
  end.

(** ** utils.py: the column codec *)

Definition ascii_uppercase : string := "ABCDEFGHIJKLMNOPQRSTUVWXYZ".

(** [s.index(c)] for a string [c] of one character: the first position
    of [c] in [s], or [ValueError]. *)
Fixpoint str_find (c : ascii) (s : string) : option nat :=
  match s with
  | EmptyString => None
  | String a s' => if Ascii.eqb a c then Some O else S <$> str_find c s'
  end.

Definition str_index (s : string) (c : ascii) : outcome Z :=
  match str_find c s with
  | Some k => Ok (Z.of_nat k)
  | None => Raise ValueError
  end.

(** [seq[i]] on a Python sequence: a negative index counts from the end,
    anything out of range is an [IndexError]. *)
Definition py_getitem {A} (l : list A) (i : Z) : outcome A :=
  let n := Z.of_nat (length l) in
  let j := if i <? 0 then i + n else i in
  if (0 <=? j) && (j <? n) then
    match l !! Z.to_nat j with
    | Some x => Ok x
    | None => Raise IndexError
    end
  else Raise IndexError.

(** [enumerate(l, start)] *)
Fixpoint enumerate {A} (l : list A) (start : Z) : list (Z * A) :=
  match l with
  | [] => []
  | x :: l' => (start, x) :: enumerate l' (start + 1)
  end.

(** [sum((ascii_uppercase.index(s) + 1) * base ** (str_len - i)
         for i, s in enumerate(col_str, 1))]: the builtin adds the terms
    from the left, starting at 0, and a term that raises ends the sum. *)
Definition col_str_to_index (col_str : string) : outcome Z :=
  let str_len := Z.of_nat (String.length col_str) in
  let base := Z.of_nat (String.length ascii_uppercase) in
  foldl (fun acc '(i, s) =>
           total ← acc;
           k ← str_index ascii_uppercase s;
           Ok (total + (k + 1) * base ^ (str_len - i)))
        (Ok 0) (enumerate (list_ascii_of_string col_str) 1).

(** The [while i:] loop of [col_index_to_str].  It does not end on a
    negative [i] ([divmod] rounds down, so [i] stays negative), hence the
    fuel: [None] is a loop still running when the fuel is spent. *)
Fixpoint col_index_to_str_loop (fuel : nat) (i : Z) (chars : list ascii)
  : option (outcome (list ascii)) :=
  match fuel with
  | O => None
  | S fuel' =>
      let base := Z.of_nat (String.length ascii_uppercase) in
      if i =? 0 then Some (Ok chars)
      else
        let '(i, r) := (i / base, i mod base) in
        let '(i, r) := if r =? 0 then (i - 1, base) else (i, r) in
        match py_getitem (list_ascii_of_string ascii_uppercase) (r - 1) with
        | Ok c => col_index_to_str_loop fuel' i (chars ++ [c])
        | Raise e => Some (Raise e)
        end
  end.

Definition col_index_to_str (fuel : nat) (i : Z) : option (outcome string) :=
  match col_index_to_str_loop fuel i [] with
  | None => None
  | Some (Raise e) => Some (Raise e)
  | Some (Ok chars) => Some (Ok (string_of_list_ascii (rev chars)))
  end.

(** ** utils.py: the cursor sequence [Array] *)

Record Array (A : Type) := mkArray {
  _array : list A;
  _pos : Z;
}.
Arguments mkArray {A} _array _pos.
Arguments _array {A} a.
Arguments _pos {A} a.

Module ArrayOps.
Section Methods.
Context {A : Type}.

(** [Array(array)]: [array or []] keeps a non-empty list. *)
Definition init (array : option (list A)) : Array A :=
  mkArray (default [] array) (-1).

Definition append (self : Array A) (v : A) : Array A :=
  mkArray (_array self ++ [v]) (_pos self).

Definition is_ended (self : Array A) : bool :=
  Z.of_nat (length (_array self)) <=? _pos self + 1.

(** [__next__] and [next]: the value or the exception, and the cursor
    afterwards. *)
Definition next (self : Array A) : outcome A * Array A :=
  if is_ended self then (Raise StopIteration, self)
  else
    let self' := mkArray (_array self) (_pos self + 1) in
    (py_getitem (_array self') (_pos self'), self').

(** [None] is [option]'s [None] here: the element type is arbitrary. *)
Definition prev (self : Array A) : outcome (option A) :=
  if 0 <? _pos self then Some <$> py_getitem (_array self) (_pos self - 1)
  else Ok None.

Definition current (self : Array A) : outcome (option A) :=
  if 0 <=? _pos self then Some <$> py_getitem (_array self) (_pos self)
  else Ok None.

Definition len (self : Array A) : Z := Z.of_nat (length (_array self)).

Definition reset (self : Array A) : Array A := mkArray (_array self) (-1).

Definition iter (self : Array A) : list A := _array self.

Definition step_back (self : Array A) (step : Z) : Array A :=
  if _pos self + 1 <? step then reset self
  else mkArray (_array self) (_pos self - step).

Definition getitem (self : Array A) (item : Z) : outcome A :=
  py_getitem (_array self) item.

(** The operations that move the cursor or extend the sequence. *)
Inductive op :=
| Next
| StepBack (step : Z)
| Reset
| Append (v : A).

Definition run_op (self : Array A) (o : op) : Array A :=
  match o with
  | Next => (next self).2
  | StepBack step => step_back self step
  | Reset => reset self
  | Append v => append self v
  end.

Definition run (self : Array A) (ops : list op) : Array A :=
  foldl run_op self ops.
End Methods.
Arguments op A : clear implicits.
End ArrayOps.

(** ** Python arithmetic on plain data *)

(** [bool(v)] *)
Definition py_truthy (v : pyval) : bool :=
  match v with
  | PNone => false
  | PBool b => b
  | PInt z => negb (z =? 0)
  | PFloat f => negb (PrimFloat.eqb f 0%float)
  | PStr s => negb (String.eqb s EmptyString)
  | PList l => negb (Nat.eqb (length l) 0)
  end.

(** An [int] as a binary64 operand, exactly (the mantissa is not yet
    rounded): the input of the correctly rounded operations of
    [SpecFloat]. *)
Definition int_to_SF (z : Z) : spec_float :=
  match z with
  | Z0 => S754_zero false
  | Zpos m => S754_finite false m 0
  | Zneg m => S754_finite true m 0
  end.

(** A result that does not fit a float is an [OverflowError]. *)
Definition SF_to_float (x : spec_float) : outcome float :=
  match x with
  | S754_infinity _ => Raise OverflowError
  | _ => Ok (SF2Prim x)
  end.

(** [float(z)] for an [int]: rounded to nearest, ties to even. *)
Definition float_of_int (z : Z) : outcome float :=
  SF_to_float (binary_normalize prec emax z 0 false).

(** The numeric reading of a value: [bool] is a subclass of [int]. *)
Inductive number :=
| NInt (z : Z)
| NFloat (f : float).

Definition as_number (v : pyval) : option number :=
  match v with
  | PBool b => Some (NInt (if b then 1 else 0))
  | PInt z => Some (NInt z)
  | PFloat f => Some (NFloat f)
  | _ => None
  end.

Definition to_float (n : number) : outcome float :=
  match n with
  | NInt z => float_of_int z
  | NFloat f => Ok f
  end.

(** [a + b] *)
Definition py_add (a b : pyval) : outcome pyval :=
  match as_number a, as_number b with
  | Some (NInt x), Some (NInt y) => Ok (PInt (x + y))
  | Some x, Some y =>
      fx ← to_float x; fy ← to_float y; Ok (PFloat (PrimFloat.add fx fy))
  | _, _ =>
      match a, b with
      | PStr s, PStr t => Ok (PStr (s +:+ t))
      | PList l, PList k => Ok (PList (l ++ k))
      | _, _ => Raise TypeError
      end
  end.

(** [a / b] as Python 3 evaluates it (true division): two [int]s give
    the correctly rounded quotient, a float operand makes the other one a
    float first. *)
Definition py_truediv (a b : pyval) : outcome pyval :=
  match as_number a, as_number b with
  | Some (NInt x), Some (NInt y) =>
      if y =? 0 then Raise ZeroDivisionError
      else PFloat <$> SF_to_float (SFdiv prec emax (int_to_SF x) (int_to_SF y))
  | Some x, Some y =>
      fx ← to_float x; fy ← to_float y;
      if PrimFloat.eqb fy 0%float then Raise ZeroDivisionError
      else Ok (PFloat (PrimFloat.div fx fy))
  | _, _ => Raise TypeError
  end.

(** The builtin [sum(iterable)]: the items are added from the left,
    starting at the [int] 0 (CPython from 3.12 on adds floats with a
    compensation term, which is not modelled). *)
Definition py_sum (items : list pyval) : outcome pyval :=
  foldl (fun acc i => total ← acc; py_add total i) (Ok (PInt 0)) items.

(** [iter(v)]: a list gives its items, a string its characters; the other
    plain values are not iterable. *)
Definition py_iter (v : pyval) : outcome (list pyval) :=
  match v with
  | PList l => Ok l
  | PStr s =>
      Ok ((fun c => PStr (String c EmptyString)) <$> list_ascii_of_string s)
  | _ => Raise TypeError
  end.

(** ** rpn/functions.py *)

Definition add_func (a b : pyval) : outcome pyval := py_add a b.

Definition divide_func (a b : pyval) : outcome pyval := py_truediv a b.

(** [isinstance(v, list)] *)
Definition is_list (v : pyval) : bool :=
  match v with
  | PList _ => true
  | _ => false
  end.

(** The body of the loop of [sum_func]: what one argument adds to
    [result].  [arg[0]] is an [IndexError] on an empty list, which the
    loop never meets: an empty list is falsy and is filtered out. *)
Definition sum_func_arg (result arg : pyval) : outcome pyval :=
  match arg with
  | PList l =>
      match l with
      | [] => Raise IndexError
      | PList _ :: _ =>
          foldl (fun acc row =>
                   result ← acc;
                   items ← py_iter row;
                   s ← py_sum (filter (fun i => py_truthy i) items);
                   py_add result s)
                (Ok result) l
      | _ => s ← py_sum (filter (fun i => py_truthy i) l); py_add result s
      end
  | _ => py_add result arg
  end.

(** [sum_func], called with the list of its arguments. *)
Definition sum_func (args : list pyval) : outcome pyval :=
  foldl (fun acc arg => result ← acc; sum_func_arg result arg)
        (Ok (PFloat 0%float)) (filter (fun a => py_truthy a) args).

(** ** rpn_builder/parser/operands.py *)

(** [range(lo, hi)] *)
Definition py_range (lo hi : Z) : list Z :=
  (fun k => lo + Z.of_nat k) <$> seq 0 (Z.to_nat (hi - lo)).

(** The element class of a set operand ([operands_type]). *)
Inductive SetClass :=
| CellSetOperandCls
| SimpleSetOperandCls.

Definition operands_type (c : SetClass) : pyobj -> bool :=
  match c with
  | CellSetOperandCls => is_SingleCellOperand
  | SimpleSetOperandCls => is_SimpleOperand
  end.

Module SetOperand.

(** The [_items] of a set operand: a [defaultdict(list)] keyed by the row
    number. *)
Abbreviation items_t := (gmap Z (list pyobj)).

(** [check_type(items)] for a list argument. *)
Definition check_type (c : SetClass) (items : list pyobj) : outcome unit :=
  if existsb (fun i => negb (operands_type c i)) items
  then Raise (RaisedOperand (new_error ValueErrorOperandCls))
  else Ok tt.

(** [check_type(item)] for one object, as [add_cell] calls it.  An item
    that is a list goes through the list branch, like the argument of
    [add_many]: every element of the list must be of the class of the
    set, so the empty list passes, and a list of plain values (the lists
    of [pyobj]) passes only when it is empty.  An item that is no list
    must itself be of the class of the set. *)
Definition check_type_item (c : SetClass) (item : pyobj) : outcome unit :=
  match item with
  | Plain (PList l) => check_type c (Plain <$> l)
  | _ =>
      if negb (operands_type c item)
      then Raise (RaisedOperand (new_error ValueErrorOperandCls))
      else Ok tt
  end.

(** [self._items[row]]: reading a missing key of the [defaultdict] gives
    (and stores) an empty list. *)
Definition row_of (_items : items_t) (row : Z) : list pyobj :=
  default [] (_items !! row).

(** [add_cell(item, row)]: the item that passed the check is appended
    to the row as it is, a list too. *)
Definition add_cell (c : SetClass) (_items : items_t) (item : pyobj)
    (row : Z) : outcome items_t :=
  _ ← check_type_item c item;
  Ok (<[row := row_of _items row ++ [item]]> _items).

Definition add_many (c : SetClass) (_items : items_t) (items : list pyobj)
    (row : Z) : outcome items_t :=
  _ ← check_type c items;
  Ok (<[row := foldl (fun r item => r ++ [item]) (row_of _items row) items]>
        _items).

(** [max(self._items)]: the largest key. *)
Definition max_key (_items : items_t) : option Z :=
  match (map_to_list _items).*1 with
  | [] => None
  | k :: ks => Some (foldl Z.max k ks)
  end.

Definition add_row (c : SetClass) (_items : items_t) (items : list pyobj)
    : outcome items_t :=
  _ ← check_type c items;
  let r := match max_key _items with
           | Some m => m + 1
           | None => 1
           end in
  add_many c _items items r.

(** [get_iter]: the rows by increasing key, each row from left to
    right. *)
Definition get_iter (_items : items_t) : list pyobj :=
  r ← merge_sort Z.le (map_to_list _items).*1; row_of _items r.

End SetOperand.

(** [CellRangeOperand.get_iter], given the attributes of the range.  The
    generator is run to its end; a bound that is [None] is asked of the
    source, which must then be there. *)
Definition bound_of (source : option DataSource)
    (f : DataSource -> option string -> Z) (ws_name : option string)
    (b : option Z) : outcome Z :=
  match b with
  | Some v => Ok v
  | None =>
      match source with
      | Some src => Ok (f src ws_name)
      | None => Raise AttributeError
      end
  end.

Definition CellRangeOperand_get_iter (row1 column1 row2 column2 : option Z)
    (ws_name : option string) (source : option DataSource)
    : outcome (list pyobj) :=
  column1 ← bound_of source min_column ws_name column1;
  column2 ← bound_of source max_column ws_name column2;
  row1 ← bound_of source min_row ws_name row1;
  row2 ← bound_of source max_row ws_name row2;
  if row1 =? row2 then
    Ok ((fun c => SingleCellOperand row1 c ws_name source)
          <$> py_range column1 (column2 + 1))
  else if column1 =? column2 then
    Ok ((fun r => SingleCellOperand r column1 ws_name source)
          <$> py_range row1 (row2 + 1))
  else
    Ok (r ← py_range row1 (row2 + 1);
        (fun c => SingleCellOperand r c ws_name source)
          <$> py_range column1 (column2 + 1)).

(** ** rpn_builder/rpn.py *)

(** [l.pop()]: the last item and the list without it, or [IndexError]. *)
Definition list_pop {A} (l : list A) : outcome (A * list A) :=
  match rev l with
  | [] => Raise IndexError
  | x :: r => Ok (x, rev r)
  end.

(** [[result_pop() for _ in range(n)]]: the popped items, in the order
    they were popped, and what is left of the stack. *)
Fixpoint pop_args (n : nat) (result : list pyobj)
  : outcome (list pyobj * list pyobj) :=
  match n with
  | O => Ok ([], result)
  | S n' =>
      '(x, result) ← list_pop result;
      '(args, result) ← pop_args n' result;
      Ok (x :: args, result)
  end.

(** An [RPN] is an [Array] of tokens with the [formula] it was built
    from. *)
Record RPN := mkRPN {
  formula : string;
  rpn_array : Array pyobj;
}.

(** What [calc] returns: one object, or the list of the leftover stack
    values as it is. *)
Inductive returned :=
| Value (o : pyobj)
| ResultList (result : list pyobj).

Definition new_set (c : SetClass) (ws_name : option string)
    (source : option DataSource) (_items : gmap Z (list pyobj)) : pyobj :=
  match c with
  | CellSetOperandCls => CellSetOperand ws_name source _items
  | SimpleSetOperandCls => SimpleSetOperand ws_name source _items
  end.

(** The [try] of [handle_result]: build the set, and give a raised
    [ValueErrorOperand] back as the value. *)
Definition build_set (set_type : SetClass) (result : list pyobj)
    (ws_name : option string) (source : option DataSource)
    : outcome returned :=
  match SetOperand.add_row set_type ∅ result with
  | Ok _items => Ok (Value (new_set set_type ws_name source _items))
  | Raise (RaisedOperand err) =>
      match err_class err with
      | ValueErrorOperandCls => Ok (Value (Error err))
      | _ => Raise (RaisedOperand err)
      end
  | Raise e => Raise e
  end.

Definition handle_result (self : RPN) (result : list pyobj)
    (ws_name : option string) (source : option DataSource)
    : outcome returned :=
  if Nat.eqb (length result) 1 then Value <$> py_getitem result 0
  else
    match filter (fun i => is_ErrorOperand i) result with
    | item :: _ => Ok (Value item)
    | [] =>
        first ← py_getitem result 0;
        if is_SingleCellOperand first then
          build_set CellSetOperandCls result ws_name source
        else if is_SimpleOperand first then
          build_set SimpleSetOperandCls result ws_name source
        else Ok (ResultList result)
    end.

(** The stamp put on a result that is an [ErrorOperand]: the formula,
    and the worksheet name when the error has none. *)
Definition stamp (self : RPN) (ws_name : option string) (v : pyobj) : pyobj :=
  match v with
  | Error err =>
      Error {| err_class := err_class err;
               err_formula := Some (formula self);
               err_ws_name := match err_ws_name err with
                              | None => ws_name
                              | Some w => Some w
                              end;
               err_source := err_source err;
               err_name := err_name err |}
  | _ => v
  end.

Section Calc.

(** [token.eval] applied to the arguments: the class [Operation] is
    defined in operations.py, which is not among the sources, so its
    method is a parameter of the engine. *)
Variable token_eval : pyobj -> list pyobj -> outcome pyobj.

(** The [try] around [token.eval]: what the operation leaves as its
    result [v], or the exception that goes through. *)
Definition eval_token (token : pyobj) (args : list pyobj) : outcome pyobj :=
  match token_eval token args with
  | Ok v => Ok v
  | Raise (RaisedOperand err) => Ok (Error err)
  | Raise TypeError | Raise ValueError =>
      Ok (Error (new_error ValueErrorOperandCls))
  | Raise ZeroDivisionError =>
      Ok (Error (new_error ZeroDivisionErrorOperandCls))
  | Raise e => Raise e
  end.

(** One round of the [for] loop of [calc]. *)
Definition calc_token (self : RPN) (ws_name : option string)
    (result : list pyobj) (token : pyobj) : outcome (list pyobj) :=
  if is_OperandLikeObject token then Ok (result ++ [token])
  else
    match token with
    | Operation f_name operands_count =>
        match pop_args (Z.to_nat operands_count) result with
        | Raise IndexError => Raise (OperandsMissing f_name (formula self))
        | Raise e => Raise e
        | Ok (args, result) =>
            let args := rev args in
            v ← eval_token token args;
            Ok (result ++ [stamp self ws_name v])
        end
    | _ => Ok result
    end.

Fixpoint calc_loop (self : RPN) (ws_name : option string)
    (tokens : list pyobj) (result : list pyobj) : outcome (list pyobj) :=
  match tokens with
  | [] => Ok result
  | token :: tokens' =>
      result ← calc_token self ws_name result token;
      calc_loop self ws_name tokens' result
  end.

Definition calc (self : RPN) (ws_name : option string)
    (source : option DataSource) : outcome returned :=
  result ← calc_loop self ws_name (ArrayOps.iter (rpn_array self)) [];
  handle_result self result ws_name source.

End Calc.

(** Modelled from the spec: [Operation.eval] of operations.py, which is
    not among the sources.  The spec has the operation invoke its function
    of the table with the resolved arguments.  [value_of] resolves an
    operand; [table] is the function table. *)
Definition Operation_eval
    (table : string -> option (list pyval -> outcome pyval))
    (value_of : pyobj -> outcome pyval)
    (token : pyobj) (args : list pyobj) : outcome pyobj :=
  match token with
  | Operation f_name _ =>
      match table f_name with
      | Some func =>
          values ← foldr (fun a acc => v ← value_of a; vs ← acc; Ok (v :: vs))
                         (Ok []) args;
          Plain <$> func values
      | None => Raise (OtherFault "KeyError")
      end
  | _ => Raise AttributeError
  end.

(** A Python function of two positional parameters, called with a list
    of arguments. *)
Definition call2 (f : pyval -> pyval -> outcome pyval) (args : list pyval)
    : outcome pyval :=
  match args with
  | [a; b] => f a b
  | _ => Raise TypeError
  end.

(** The entries of [EXCEL_FUNCTIONS] whose functions are embedded
    above. *)
Definition EXCEL_FUNCTIONS (f_name : string)
    : option (list pyval -> outcome pyval) :=
  if String.eqb f_name "+" then Some (call2 add_func)
  else if String.eqb f_name "/" then Some (call2 divide_func)
  else if String.eqb f_name "SUM" then Some sum_func
  else None.

(** Modelled from the spec: the resolution of an argument that needs no
    data source.  A plain value is resolved already; the [value] of a
    [SimpleOperand] is the literal it wraps; the [value] of an
    [ErrorOperand] raises the operand itself.  A reference is resolved
    through the data source, by code that is not among the sources: it is
    no literal. *)
Definition literal_value (o : pyobj) : outcome pyval :=
  match o with
  | Plain v => Ok v
  | SimpleOperand value _ _ => Ok value
  | Error err => Raise (RaisedOperand err)
  | _ => Raise (OtherFault "not a literal")
  end.

(** ** The words of the specification, for comparison *)

(** The letters of a column name: [A] to [Z]. *)
Definition is_upper (c : ascii) : bool :=
  (65 <=? nat_of_ascii c)%nat && (nat_of_ascii c <=? 90)%nat.

Definition is_column_name (s : string) : bool :=
  forallb is_upper (list_ascii_of_string s).

(** The value of a letter, [A] = 0 ... [Z] = 25, so that a letter
    contributes [letter_value + 1]. *)
Definition letter_value (c : ascii) : Z := Z.of_nat (nat_of_ascii c) - 65.

(** The positional scheme of the specification: the sum over the letters
    of [(letter_value + 1) * 26 ^ position], the position being counted
    from the right and the rightmost letter having position
    [first_position]. *)
Definition positional_sum (first_position : Z) (letters : string) : Z :=
  foldr Z.add 0
    ((fun '(p, c) => (letter_value c + 1) * 26 ^ p)
       <$> enumerate (rev (list_ascii_of_string letters)) first_position).

(** The value of a column name, most significant letter first. *)
Fixpoint weighted (l : list ascii) : Z :=
  match l with
  | [] => 0
  | c :: l' => (letter_value c + 1) * 26 ^ Z.of_nat (length l') + weighted l'
  end.

(** The coordinates of the rectangle from [(r1, c1)] to [(r2, c2)], row
    by row. *)
Definition row_major (r1 r2 c1 c2 : Z) : list (Z * Z) :=
  r ← py_range r1 (r2 + 1); (fun c => (r, c)) <$> py_range c1 (c2 + 1).

(** A data source for the examples: a sheet of three rows and four
    columns. *)
Definition small_sheet : DataSource :=
  {| min_row := fun _ => 1; max_row := fun _ => 3;
     min_column := fun _ => 1; max_column := fun _ => 4 |}.

(** The words of the specification for the set built from the leftover
    stack values, "each added as a new row": one [add_row] per value. *)
Definition each_value_a_new_row (c : SetClass) (result : list pyobj)
    : outcome (gmap Z (list pyobj)) :=
  foldl (fun acc v => _items ← acc; SetOperand.add_row c _items [v])
        (Ok ∅) result.

(** The tokens that [calc] acts on. *)
Definition is_token (o : pyobj) : bool :=
  is_OperandLikeObject o || is_Operation o.

(** The postfix sequence of the formula [4/0]. *)
Definition four_by_zero : RPN :=
  mkRPN "4/0"
    (mkArray [SimpleOperand (PInt 4) None None;
              SimpleOperand (PInt 0) None None;
              Operation "/" 2] (-1)).

(** ** More of operands.py: the addresses *)

From Stdlib Require Import DecimalString DecimalZ.

(** ['%d' % z]: the decimal numeral of an [int], with a minus sign when
    it is negative. *)
Definition format_d (z : Z) : string := NilZero.string_of_int (Z.to_int z).

(** ['%s' % ws_name]: a string as it is, [None] as the text [None]. *)
Definition format_s (ws_name : option string) : string :=
  default "None"%string ws_name.

(** [SingleCellOperand.address]; the fuel is that of the loop of
    [col_index_to_str]. *)
Definition SingleCellOperand_address (fuel : nat) (row column : Z)
    (ws_name : option string) : option (outcome string) :=
  match col_index_to_str fuel column with
  | None => None
  | Some (Raise e) => Some (Raise e)
  | Some (Ok col) =>
      Some (Ok ("'" +:+ format_s ws_name +:+ "'!" +:+ col +:+ format_d row))
  end.

(** [col_index_to_str] on a bound of a range: on [None] the loop
    [while i:] does not run, and the name is empty. *)
Definition col_index_to_str_bound (fuel : nat) (i : option Z)
    : option (outcome string) :=
  match i with
  | None => Some (Ok EmptyString)
  | Some i => col_index_to_str fuel i
  end.

(** ['%d'] of a bound of a range: [None] is no number. *)
Definition format_d_bound (row : option Z) : outcome string :=
  match row with
  | Some z => Ok (format_d z)
  | None => Raise TypeError
  end.

(** [CellRangeOperand.address]: the two column names are computed
    first, then the text is formatted from left to right. *)
Definition CellRangeOperand_address (fuel : nat)
    (row1 column1 row2 column2 : option Z) (ws_name : option string)
    : option (outcome string) :=
  match col_index_to_str_bound fuel column1 with
  | None => None
  | Some (Raise e) => Some (Raise e)
  | Some (Ok col1) =>
      match col_index_to_str_bound fuel column2 with
      | None => None
      | Some (Raise e) => Some (Raise e)
      | Some (Ok col2) =>
          Some (d1 ← format_d_bound row1;
                d2 ← format_d_bound row2;
                Ok ("'" +:+ format_s ws_name +:+ "'!" +:+ col1 +:+ d1
                    +:+ ":" +:+ col2 +:+ d2))
      end
  end.

(** The characters of a decimal numeral. *)
Definition is_numeral_char (c : ascii) : bool :=
  ((48 <=? nat_of_ascii c)%nat && (nat_of_ascii c <=? 57)%nat)
  || Ascii.eqb c "-".

(** ** Auxiliary definitions for the further properties *)

(** A cursor operation as [Array] is meant to be used: a [step_back] by
    a step that is not negative. *)
Definition backward_step {A} (o : ArrayOps.op A) : bool :=
  match o with
  | ArrayOps.StepBack step => 0 <=? step
  | _ => true
  end.

(** The methods that fill a set operand, as operations, and a sequence
    of them run on a set: a method that raises ends the sequence. *)
Inductive set_op :=
| AddCell (item : pyobj) (row : Z)
| AddMany (items : list pyobj) (row : Z)
| AddRow (items : list pyobj).

Definition run_set_op (c : SetClass) (_items : gmap Z (list pyobj))
    (o : set_op) : outcome (gmap Z (list pyobj)) :=
  match o with
  | AddCell item row => SetOperand.add_cell c _items item row
  | AddMany items row => SetOperand.add_many c _items items row
  | AddRow items => SetOperand.add_row c _items items
  end.

Definition run_set_ops (c : SetClass) (_items : gmap Z (list pyobj))
    (ops : list set_op) : outcome (gmap Z (list pyobj)) :=
  foldl (fun acc o => _items ← acc; run_set_op c _items o) (Ok _items) ops.

(** An [add_cell] whose item is a list. *)
Definition adds_list_cell (o : set_op) : bool :=
  match o with
  | AddCell (Plain (PList _)) _ => true
  | _ => false
  end.

(** Every row of the set holds items of the class of the set only. *)
Definition rows_typed (c : SetClass) (m : gmap Z (list pyobj)) : Prop :=
  forall r row, m !! r = Some row -> forallb (operands_type c) row = true.

(** The zero of the numbers: the [int] 0 (and [False]) and the floats
    0.0 and -0.0. *)
Definition is_zero (n : number) : bool :=
  match n with
  | NInt z => z =? 0
  | NFloat f => PrimFloat.eqb f 0%float
  end.

(** What a token does to the height of the result stack: an operand
    adds one value, an operation takes [operands_count] values (none
    when the count is negative) and adds one. *)
Definition stack_effect (token : pyobj) : Z :=
  if is_OperandLikeObject token then 1
  else
    match token with
    | Operation _ operands_count => 1 - Z.max 0 operands_count
    | _ => 0
    end.

(** The exceptions that no [except] clause of [calc] names. *)
Definition passes_through (e : exn) : bool :=
  match e with
  | TypeError | ValueError | ZeroDivisionError | RaisedOperand _ => false
  | _ => true
  end.

(** * Properties *)

(** ** The result monad *)

Lemma bind_Ok {A B} (f : A -> outcome B) (a : A) : Ok a ≫= f = f a.
Proof. reflexivity. Qed.

Lemma bind_Raise {A B} (f : A -> outcome B) (e : exn) :
  (Raise e : outcome A) ≫= f = Raise e.
Proof. reflexivity. Qed.

(** ** The column codec *)

Section Codec.

Lemma weighted_snoc l c :
  weighted (l ++ [c]) = 26 * weighted l + (letter_value c + 1).
Proof.
  induction l as [|a l IH]; simpl.
  - lia.
  - rewrite IH, length_app. simpl length.
    replace (Z.of_nat (length l + 1)) with (Z.succ (Z.of_nat (length l)))
      by lia.
    rewrite Z.pow_succ_r by lia. lia.
Qed.

Lemma is_upper_bounds c :
  is_upper c = true -> 0 <= letter_value c <= 25.
Proof.
  unfold is_upper, letter_value. intros H.
  apply andb_prop in H as [H1 H2].
  apply Nat.leb_le in H1. apply Nat.leb_le in H2. lia.
Qed.

Lemma weighted_nonneg l :
  forallb is_upper l = true -> 0 <= weighted l.
Proof.
  induction l as [|a l IH]; simpl; [lia|].
  intros H. apply andb_prop in H as [Ha Hl].
  apply is_upper_bounds in Ha. specialize (IH Hl).
  assert (0 <= 26 ^ Z.of_nat (length l)) by (apply Z.pow_nonneg; lia).
  nia.
Qed.

(** [ascii_uppercase.index] finds a letter at its value. *)
Lemma str_index_upper c :
  is_upper c = true -> str_index ascii_uppercase c = Ok (letter_value c).
Proof.
  destruct c as [[] [] [] [] [] [] [] []]; vm_compute; congruence.
Qed.

Lemma str_index_not_upper c :
  is_upper c = false -> str_index ascii_uppercase c = Raise ValueError.
Proof.
  destruct c as [[] [] [] [] [] [] [] []]; vm_compute; congruence.
Qed.

(** [ascii_uppercase[v]] is the letter of value [v]. *)
Lemma getitem_upper c :
  is_upper c = true ->
  py_getitem (list_ascii_of_string ascii_uppercase) (letter_value c) = Ok c.
Proof.
  destruct c as [[] [] [] [] [] [] [] []]; vm_compute; congruence.
Qed.

Lemma getitem_digit r :
  1 <= r <= 26 ->
  exists c, py_getitem (list_ascii_of_string ascii_uppercase) (r - 1) = Ok c
            /\ is_upper c = true /\ letter_value c + 1 = r.
Proof.
  intros Hr.
  assert (Hk : exists k : nat, (k < 26)%nat /\ r = Z.of_nat k + 1).
  { exists (Z.to_nat (r - 1)). lia. }
  destruct Hk as (k & Hk & ->).
  do 26 (destruct k as [|k];
         [eexists; split; [vm_compute; reflexivity|split; reflexivity]|]).
  lia.
Qed.

(** The sum of [col_str_to_index], on a suffix of the name. *)
Lemma col_str_to_index_suffix l : forall acc i str_len,
  forallb is_upper l = true ->
  str_len - i + 1 = Z.of_nat (length l) ->
  foldl (fun acc '(i, s) =>
           total ← acc;
           k ← str_index ascii_uppercase s;
           Ok (total + (k + 1) * 26 ^ (str_len - i)))
        (Ok acc) (enumerate l i)
  = Ok (acc + weighted l).
Proof.
  induction l as [|c l IH]; intros acc i str_len Hup Hlen; simpl.
  - f_equal. lia.
  - simpl in Hup. apply andb_prop in Hup as [Hc Hl].
    rewrite (str_index_upper c Hc). simpl.
    simpl length in Hlen.
    rewrite IH by (auto; lia).
    f_equal. replace (str_len - i) with (Z.of_nat (length l)) by lia. lia.
Qed.

Lemma length_list_ascii s :
  length (list_ascii_of_string s) = String.length s.
Proof. induction s; simpl; congruence. Qed.

Lemma col_str_to_index_weighted s :
  is_column_name s = true ->
  col_str_to_index s = Ok (weighted (list_ascii_of_string s)).
Proof.
  intros H. unfold col_str_to_index.
  change (Z.of_nat (String.length ascii_uppercase)) with 26.
  rewrite (col_str_to_index_suffix _ 0 1 _ H).
  - reflexivity.
  - rewrite length_list_ascii. lia.
Qed.

(** A character outside [A]..[Z] makes [col_str_to_index] raise. *)
Lemma col_str_to_index_raise_sticks l : forall i str_len e,
  foldl (fun acc '(i, s) =>
           total ← acc;
           k ← str_index ascii_uppercase s;
           Ok (total + (k + 1) * 26 ^ (str_len - i)))
        (Raise e) (enumerate l i)
  = Raise e.
Proof. induction l as [|c l IH]; intros; simpl; auto. Qed.

(** One round of the loop of [col_index_to_str]. *)
Lemma loop_step fuel i chars q r c :
  i = 26 * q + r -> 1 <= r <= 26 -> 0 <= q ->
  py_getitem (list_ascii_of_string ascii_uppercase) (r - 1) = Ok c ->
  col_index_to_str_loop (S fuel) i chars
  = col_index_to_str_loop fuel q (chars ++ [c]).
Proof.
  intros Hi Hr Hq Hc.
  cbn [col_index_to_str_loop].
  change (Z.of_nat (String.length ascii_uppercase)) with 26.
  destruct (i =? 0) eqn:E; [lia|].
  pose proof (Z.div_mod i 26 ltac:(lia)) as Hdm.
  pose proof (Z.mod_pos_bound i 26 ltac:(lia)) as Hb.
  destruct (i mod 26 =? 0) eqn:E0.
  - assert (r = 26) by lia. assert (i / 26 - 1 = q) by lia.
    subst r. rewrite H0. rewrite Hc. reflexivity.
  - assert (i mod 26 = r) by lia. assert (i / 26 = q) by lia.
    rewrite H, H0, Hc. reflexivity.
Qed.

(** The loop writes the letters of a name backwards. *)
Lemma loop_weighted l : forall fuel chars,
  forallb is_upper l = true ->
  (length l < fuel)%nat ->
  col_index_to_str_loop fuel (weighted l) chars = Some (Ok (chars ++ rev l)).
Proof.
  induction l as [|c l IH] using rev_ind; intros fuel chars Hup Hfuel.
  - destruct fuel; [simpl in Hfuel; lia|]. simpl. by rewrite app_nil_r.
  - rewrite forallb_app in Hup. apply andb_prop in Hup as [Hl Hc].
    simpl in Hc. rewrite andb_true_r in Hc.
    rewrite length_app in Hfuel. simpl in Hfuel.
    destruct fuel as [|fuel]; [lia|].
    pose proof (is_upper_bounds c Hc) as Hb.
    pose proof (weighted_nonneg l Hl) as Hw.
    rewrite (loop_step fuel _ chars (weighted l) (letter_value c + 1) c).
    + rewrite IH by (auto; lia). rewrite rev_app_distr. simpl.
      by rewrite <- app_assoc.
    + apply weighted_snoc.
    + lia.
    + lia.
    + replace (letter_value c + 1 - 1) with (letter_value c) by lia.
      by apply getitem_upper.
Qed.

(** The loop ends on every index from 0 on, and writes a name of that
    value. *)
Lemma loop_terminates fuel : forall i chars,
  0 <= i -> (Z.to_nat i < fuel)%nat ->
  exists ds, col_index_to_str_loop fuel i chars = Some (Ok (chars ++ ds))
             /\ forallb is_upper ds = true
             /\ weighted (rev ds) = i
             /\ (i = 0 <-> ds = []).
Proof.
  induction fuel as [|fuel IH]; intros i chars Hi Hfuel; [lia|].
  destruct (decide (i = 0)) as [->|Hnz].
  - exists []. simpl. rewrite app_nil_r. done.
  - pose proof (Z.div_mod i 26 ltac:(lia)) as Hdm.
    pose proof (Z.mod_pos_bound i 26 ltac:(lia)) as Hb.
    set (r := if i mod 26 =? 0 then 26 else i mod 26).
    set (q := if i mod 26 =? 0 then i / 26 - 1 else i / 26).
    assert (Hqr : i = 26 * q + r /\ 1 <= r <= 26 /\ 0 <= q).
    { subst q r. destruct (i mod 26 =? 0) eqn:E; lia. }
    destruct Hqr as (Hiq & Hr & Hq).
    destruct (getitem_digit r Hr) as (c & Hc & Hup & Hv).
    destruct (IH q (chars ++ [c]) Hq ltac:(lia)) as (ds & Hds & Hupds & Hwd & _).
    exists (c :: ds). split; [|split; [|split]].
    + rewrite (loop_step fuel i chars q r c Hiq Hr Hq Hc), Hds.
      by rewrite <- app_assoc.
    + simpl. by rewrite Hup, Hupds.
    + simpl. rewrite weighted_snoc, Hwd. lia.
    + split; [lia|discriminate].
Qed.

(** The positional sum of the letters, read from the right. *)
Lemma positional_shift l : forall p,
  0 <= p ->
  foldr Z.add 0
    ((fun '(p, c) => (letter_value c + 1) * 26 ^ p) <$> enumerate l (p + 1))
  = 26 * foldr Z.add 0
           ((fun '(p, c) => (letter_value c + 1) * 26 ^ p) <$> enumerate l p).
Proof.
  induction l as [|c l IH]; intros p Hp; [simpl; lia|].
  cbn [enumerate]. rewrite !fmap_cons. cbn [foldr].
  rewrite IH by lia.
  rewrite Z.pow_add_r by lia. change (26 ^ 1) with 26. ring.
Qed.

Lemma weighted_positional s :
  weighted (list_ascii_of_string s) = positional_sum 0 s.
Proof.
  unfold positional_sum.
  induction (list_ascii_of_string s) as [|c l IH] using rev_ind.
  - reflexivity.
  - rewrite weighted_snoc, rev_app_distr.
    cbn [app rev enumerate]. rewrite fmap_cons. cbn [foldr].
    rewrite (positional_shift (rev l) 0) by lia.
    rewrite <- IH. change (26 ^ 0) with 1. lia.
Qed.

End Codec.

(** C6.  Round trip of the column codec: for every index [n >= 1] the loop
    of [col_index_to_str] ends (any fuel above [n] is enough) with a name
    that [col_str_to_index] maps back to [n]; and for every non-empty
    name [s] of letters [A]..[Z], [col_str_to_index s] is an index that
    [col_index_to_str] maps back to [s]. *)
Theorem col_codec_round_trip :
  (forall n fuel, 1 <= n -> (Z.to_nat n < fuel)%nat ->
     exists s, col_index_to_str fuel n = Some (Ok s)
               /\ s <> EmptyString /\ is_column_name s = true
               /\ col_str_to_index s = Ok n)
  /\ (forall s, s <> EmptyString -> is_column_name s = true ->
     exists n, col_str_to_index s = Ok n /\ 1 <= n
               /\ forall fuel, (String.length s < fuel)%nat ->
                    col_index_to_str fuel n = Some (Ok s)).
Proof.
  split.
  - intros n fuel Hn Hfuel.
    destruct (loop_terminates fuel n [] ltac:(lia) Hfuel)
      as (ds & Hloop & Hup & Hw & Hnil).
    exists (string_of_list_ascii (rev ds)).
    assert (Hname : is_column_name (string_of_list_ascii (rev ds)) = true).
    { unfold is_column_name. rewrite list_ascii_of_string_of_list_ascii.
      rewrite forallb_forall in Hup |- *.
      intros c Hc. apply Hup. by apply in_rev. }
    split; [|split; [|split]].
    + unfold col_index_to_str. by rewrite Hloop.
    + intros E. apply (f_equal list_ascii_of_string) in E.
      rewrite list_ascii_of_string_of_list_ascii in E. simpl in E.
      apply (f_equal (@rev ascii)) in E. rewrite rev_involutive in E.
      simpl in E. apply Hnil in E. lia.
    + exact Hname.
    + rewrite col_str_to_index_weighted by exact Hname.
      rewrite list_ascii_of_string_of_list_ascii. by rewrite Hw.
  - intros s Hne Hname.
    exists (weighted (list_ascii_of_string s)).
    split; [by apply col_str_to_index_weighted|]. split.
    + destruct s as [|c s]; [done|].
      unfold is_column_name in Hname. simpl in Hname |- *.
      apply andb_prop in Hname as [Hc Hs].
      apply is_upper_bounds in Hc. apply weighted_nonneg in Hs.
      assert (1 <= 26 ^ Z.of_nat (length (list_ascii_of_string s))).
      { pose proof (Z.pow_pos_nonneg 26 (Z.of_nat (length (list_ascii_of_string s)))
                      ltac:(lia) ltac:(lia)). lia. }
      nia.
    + intros fuel Hfuel. unfold col_index_to_str.
      rewrite loop_weighted.
      * simpl. rewrite rev_involutive.
        by rewrite string_of_list_ascii_of_string.
      * exact Hname.
      * by rewrite length_list_ascii.
Qed.

Lemma col_codec_round_trip_witness :
  (exists s, col_index_to_str 29 28 = Some (Ok s)
             /\ s <> EmptyString /\ is_column_name s = true
             /\ col_str_to_index s = Ok 28)
  /\ (exists n, col_str_to_index "ZZ" = Ok n /\ 1 <= n
                /\ forall fuel, (String.length "ZZ" < fuel)%nat ->
                     col_index_to_str fuel n = Some (Ok "ZZ"%string)).
Proof.
  split.
  - apply (proj1 col_codec_round_trip 28 29%nat); [lia|simpl; lia].
  - apply (proj2 col_codec_round_trip "ZZ"%string); [discriminate|reflexivity].
Defined.

(** C7, as stated, fails on the name [A]: [col_str_to_index] gives 1,
    where weights counted from position 1 at the right give 26. *)
Lemma col_str_to_index_not_one_based :
  is_column_name "A" = true
  /\ col_str_to_index "A" = Ok 1
  /\ positional_sum 1 "A" = 26
  /\ col_str_to_index "A" <> Ok (positional_sum 1 "A").
Proof. repeat split; vm_compute; congruence. Qed.

(** C7, amended.  For every name of letters [A]..[Z],
    [col_str_to_index] returns the sum over the letters of
    [(letter_value + 1) * 26 ^ position], the position being counted from
    the right and starting at 0, so that the rightmost letter weighs 1;
    [A] contributes 1 and [Z] 26. *)
Theorem col_str_to_index_positional s :
  is_column_name s = true ->
  col_str_to_index s = Ok (positional_sum 0 s)
  /\ letter_value "A" + 1 = 1 /\ letter_value "Z" + 1 = 26.
Proof.
  intros H. split; [|split; reflexivity].
  rewrite col_str_to_index_weighted by exact H.
  by rewrite weighted_positional.
Qed.

Lemma col_str_to_index_positional_witness :
  col_str_to_index "BC" = Ok (positional_sum 0 "BC")
  /\ letter_value "A" + 1 = 1 /\ letter_value "Z" + 1 = 26.
Proof. apply (col_str_to_index_positional "BC"). reflexivity. Defined.

(** ** The cursor sequence *)

Section Cursor.
Context {A : Type}.
Implicit Types (self : Array A) (step : Z).

Lemma next_ended self :
  ArrayOps.is_ended self = true ->
  ArrayOps.next self = (Raise StopIteration, self).
Proof. unfold ArrayOps.next. by intros ->. Qed.

Lemma next_pos self :
  _pos (ArrayOps.next self).2
  = if ArrayOps.is_ended self then _pos self else _pos self + 1.
Proof. unfold ArrayOps.next. by destruct (ArrayOps.is_ended self). Qed.

Lemma step_back_pos self step :
  _pos (ArrayOps.step_back self step)
  = if _pos self + 1 <? step then -1 else _pos self - step.
Proof.
  unfold ArrayOps.step_back. by destruct (_pos self + 1 <? step).
Qed.

Lemma step_back_array self step :
  _array (ArrayOps.step_back self step) = _array self.
Proof.
  unfold ArrayOps.step_back. by destruct (_pos self + 1 <? step).
Qed.

Lemma run_op_lower_bound self (o : ArrayOps.op A) :
  -1 <= _pos self -> -1 <= _pos (ArrayOps.run_op self o).
Proof.
  intros H. destruct o as [|step| |v]; simpl.
  - rewrite next_pos. destruct (ArrayOps.is_ended self); lia.
  - rewrite step_back_pos. destruct (_pos self + 1 <? step) eqn:E; lia.
  - lia.
  - exact H.
Qed.

Lemma run_lower_bound (ops : list (ArrayOps.op A)) : forall self,
  -1 <= _pos self -> -1 <= _pos (ArrayOps.run self ops).
Proof.
  unfold ArrayOps.run.
  induction ops as [|o ops IH]; intros self H; simpl; [exact H|].
  apply IH. by apply run_op_lower_bound.
Qed.

End Cursor.

(** C9.  On every cursor: [next] on an ended cursor raises
    [StopIteration] and leaves the cursor as it was; [step_back(n)] moves
    the position back by [n] when [n] is at most the number of elements
    passed, and lands before the first element (position -1) whenever [n]
    exceeds the position; so from a cursor at or after position -1, in
    particular from a new one, no sequence of [next], [step_back],
    [reset] and [append] brings the position below -1. *)
Theorem Array_cursor_never_below_start (A : Type) :
  (forall self : Array A,
     ArrayOps.is_ended self = true ->
     ArrayOps.next self = (Raise StopIteration, self))
  /\ (forall (self : Array A) n,
        n <= _pos self + 1 ->
        ArrayOps.step_back self n = mkArray (_array self) (_pos self - n))
  /\ (forall (self : Array A) n,
        _pos self < n ->
        ArrayOps.step_back self n = mkArray (_array self) (-1))
  /\ (forall (self : Array A) ops,
        -1 <= _pos self -> -1 <= _pos (ArrayOps.run self ops))
  /\ (forall (array : option (list A)) ops,
        -1 <= _pos (ArrayOps.run (ArrayOps.init array) ops)).
Proof.
  split; [|split; [|split; [|split]]].
  - apply next_ended.
  - intros self n Hn. unfold ArrayOps.step_back.
    destruct (_pos self + 1 <? n) eqn:E; [lia|done].
  - intros self n Hn. unfold ArrayOps.step_back, ArrayOps.reset.
    destruct (_pos self + 1 <? n) eqn:E; [done|].
    f_equal. lia.
  - intros self ops. apply run_lower_bound.
  - intros array ops. apply (run_lower_bound (A:=A)). simpl. lia.
Qed.

Lemma Array_cursor_never_below_start_witness :
  ArrayOps.next (mkArray [7; 8] 1) = (Raise StopIteration, mkArray [7; 8] 1)
  /\ ArrayOps.step_back (mkArray [7; 8] 1) 2 = mkArray [7; 8] (-1)
  /\ ArrayOps.step_back (mkArray [7; 8] 1) 5 = mkArray [7; 8] (-1)
  /\ -1 <= _pos (ArrayOps.run (mkArray [7; 8] 0)
                   [ArrayOps.Next; ArrayOps.StepBack 9; ArrayOps.StepBack (-3);
                    ArrayOps.Reset; ArrayOps.Next]).
Proof.
  pose proof (Array_cursor_never_below_start Z) as (H1 & H2 & H3 & H4 & _).
  split; [|split; [|split]].
  - apply (H1 (mkArray [7; 8] 1)). reflexivity.
  - apply (H2 (mkArray [7; 8] 1) 2). simpl. lia.
  - apply (H3 (mkArray [7; 8] 1) 5). simpl. lia.
  - apply (H4 (mkArray [7; 8] 0)). simpl. lia.
Defined.

(** ** Cell ranges *)

Section Ranges.

Lemma length_py_range lo hi : length (py_range lo hi) = Z.to_nat (hi - lo).
Proof. unfold py_range. by rewrite length_fmap, length_seq. Qed.

Lemma lookup_py_range lo hi (k : nat) :
  (k < Z.to_nat (hi - lo))%nat ->
  py_range lo hi !! k = Some (lo + Z.of_nat k).
Proof.
  intros H. unfold py_range.
  rewrite list_lookup_fmap, lookup_seq_lt by exact H. reflexivity.
Qed.

(** A list of rows of one width, joined: the item [j] of row [i] is at
    [i * w + j]. *)
Lemma lookup_bind_rows {X Y} (f : X -> list Y) (w : nat) (l : list X) :
  (forall x, length (f x) = w) ->
  forall (i j : nat) x,
    l !! i = Some x -> (j < w)%nat ->
    (l ≫= f) !! (i * w + j)%nat = f x !! j.
Proof.
  intros Hw. induction l as [|a l IH]; intros i j x Hi Hj; [done|].
  rewrite bind_cons. destruct i as [|i]; simpl in Hi.
  - injection Hi as ->. simpl. rewrite lookup_app_l; [done|]. by rewrite Hw.
  - rewrite lookup_app_r by (rewrite Hw; simpl; lia).
    rewrite Hw. replace (S i * w + j - w)%nat with (i * w + j)%nat
      by (simpl; lia).
    by apply IH.
Qed.

Lemma length_bind_rows {X Y} (f : X -> list Y) (w : nat) (l : list X) :
  (forall x, length (f x) = w) ->
  length (l ≫= f) = (length l * w)%nat.
Proof.
  intros Hw. induction l as [|a l IH]; [done|].
  rewrite bind_cons, length_app, IH, Hw. simpl. lia.
Qed.

Lemma py_range_one lo : py_range lo (lo + 1) = [lo].
Proof.
  unfold py_range. replace (lo + 1 - lo) with 1 by lia. simpl.
  f_equal. lia.
Qed.

Lemma bind_singleton_rows {X Y} (g : X -> Y) (l : list X) :
  l ≫= (fun x => [g x]) = g <$> l.
Proof. induction l as [|a l IH]; [done|]. rewrite bind_cons, IH. done. Qed.

Lemma bind_ext_rows {X Y} (f g : X -> list Y) (l : list X) :
  (forall x, f x = g x) -> l ≫= f = l ≫= g.
Proof.
  intros H. induction l as [|a l IH]; [done|].
  by rewrite !bind_cons, H, IH.
Qed.

Lemma fmap_bind_rows {X Y W} (g : Y -> W) (f : X -> list Y) (l : list X) :
  g <$> (l ≫= f) = l ≫= (fun x => g <$> f x).
Proof.
  induction l as [|a l IH]; [done|].
  rewrite !bind_cons, fmap_app, IH. done.
Qed.

Lemma length_row_major r1 r2 c1 c2 :
  length (row_major r1 r2 c1 c2)
  = (Z.to_nat (r2 + 1 - r1) * Z.to_nat (c2 + 1 - c1))%nat.
Proof.
  unfold row_major.
  rewrite (length_bind_rows _ (Z.to_nat (c2 + 1 - c1))).
  - by rewrite length_py_range.
  - intros r. by rewrite length_fmap, length_py_range.
Qed.

Lemma lookup_row_major r1 r2 c1 c2 (i j : nat) :
  (i < Z.to_nat (r2 + 1 - r1))%nat ->
  (j < Z.to_nat (c2 + 1 - c1))%nat ->
  row_major r1 r2 c1 c2 !! (i * Z.to_nat (c2 + 1 - c1) + j)%nat
  = Some (r1 + Z.of_nat i, c1 + Z.of_nat j).
Proof.
  intros Hi Hj. unfold row_major.
  assert (Hw : forall r : Z,
             length ((fun c => (r, c)) <$> py_range c1 (c2 + 1))
             = Z.to_nat (c2 + 1 - c1)).
  { intros r. by rewrite length_fmap, length_py_range. }
  rewrite (lookup_bind_rows _ _ _ Hw i j (r1 + Z.of_nat i)).
  - rewrite list_lookup_fmap, lookup_py_range by exact Hj. done.
  - by apply lookup_py_range.
  - exact Hj.
Qed.

(** Whatever the branch taken, [get_iter] yields the cells of the
    rectangle row by row. *)
Lemma get_iter_row_major row1 column1 row2 column2 ws_name source c1 c2 r1 r2 :
  bound_of source min_column ws_name column1 = Ok c1 ->
  bound_of source max_column ws_name column2 = Ok c2 ->
  bound_of source min_row ws_name row1 = Ok r1 ->
  bound_of source max_row ws_name row2 = Ok r2 ->
  CellRangeOperand_get_iter row1 column1 row2 column2 ws_name source
  = Ok ((fun '(r, c) => SingleCellOperand r c ws_name source)
          <$> row_major r1 r2 c1 c2).
Proof.
  intros Hc1 Hc2 Hr1 Hr2. unfold CellRangeOperand_get_iter.
  rewrite Hc1, Hc2, Hr1, Hr2. cbn [mbind outcome_bind].
  unfold row_major. rewrite fmap_bind_rows.
  destruct (r1 =? r2) eqn:Er; [|destruct (c1 =? c2) eqn:Ec].
  - apply Z.eqb_eq in Er. subst r2. f_equal.
    rewrite py_range_one. rewrite bind_cons. simpl mbind.
    rewrite app_nil_r. by rewrite <- list_fmap_compose.
  - apply Z.eqb_eq in Ec. subst c2. f_equal.
    rewrite py_range_one. simpl. by rewrite bind_singleton_rows.
  - f_equal. apply bind_ext_rows.
    intros r. by rewrite <- list_fmap_compose.
Qed.

End Ranges.

(** C8.  Once the bounds that are [None] are read from the data source,
    iterating a cell range yields [SingleCellOperand]s of the worksheet
    and source of the range, whose coordinates are: for a single row
    ([row1 = row2]), the columns [column1] to [column2] from left to
    right; for a single column ([column1 = column2]), the rows [row1] to
    [row2] from top to bottom; and in every case the cells of the
    rectangle row by row, the cell of row [row1 + i] and column
    [column1 + j] being at place [i * width + j]. *)
Theorem CellRange_get_iter_order
    row1 column1 row2 column2 ws_name source c1 c2 r1 r2 :
  bound_of source min_column ws_name column1 = Ok c1 ->
  bound_of source max_column ws_name column2 = Ok c2 ->
  bound_of source min_row ws_name row1 = Ok r1 ->
  bound_of source max_row ws_name row2 = Ok r2 ->
  (forall src, source = Some src ->
     c1 = default (min_column src ws_name) column1
     /\ c2 = default (max_column src ws_name) column2
     /\ r1 = default (min_row src ws_name) row1
     /\ r2 = default (max_row src ws_name) row2)
  /\ exists coords : list (Z * Z),
    CellRangeOperand_get_iter row1 column1 row2 column2 ws_name source
    = Ok ((fun '(r, c) => SingleCellOperand r c ws_name source) <$> coords)
    /\ (r1 = r2 ->
        length coords = Z.to_nat (c2 + 1 - c1)
        /\ forall k : nat, (k < length coords)%nat ->
             coords !! k = Some (r1, c1 + Z.of_nat k))
    /\ (c1 = c2 ->
        length coords = Z.to_nat (r2 + 1 - r1)
        /\ forall k : nat, (k < length coords)%nat ->
             coords !! k = Some (r1 + Z.of_nat k, c1))
    /\ length coords
       = (Z.to_nat (r2 + 1 - r1) * Z.to_nat (c2 + 1 - c1))%nat
    /\ forall i j : nat,
         (i < Z.to_nat (r2 + 1 - r1))%nat ->
         (j < Z.to_nat (c2 + 1 - c1))%nat ->
         coords !! (i * Z.to_nat (c2 + 1 - c1) + j)%nat
         = Some (r1 + Z.of_nat i, c1 + Z.of_nat j).
Proof.
  intros Hc1 Hc2 Hr1 Hr2. split.
  - intros src ->.
    destruct column1, column2, row1, row2; simpl in *;
      repeat split; congruence.
  - exists (row_major r1 r2 c1 c2).
    split; [by apply get_iter_row_major|].
    pose proof (length_row_major r1 r2 c1 c2) as Hlen.
    pose proof (lookup_row_major r1 r2 c1 c2) as Hlook.
    split; [|split; [|split]].
    + intros <-. rewrite Hlen.
      replace (Z.to_nat (r1 + 1 - r1)) with 1%nat in * by lia.
      split; [lia|]. intros k Hk.
      specialize (Hlook 0%nat k ltac:(lia) ltac:(lia)).
      rewrite Z.add_0_r in Hlook. exact Hlook.
    + intros <-. rewrite Hlen.
      replace (Z.to_nat (c1 + 1 - c1)) with 1%nat in * by lia.
      split; [lia|]. intros k Hk.
      specialize (Hlook k 0%nat ltac:(lia) ltac:(lia)).
      rewrite Z.add_0_r in Hlook.
      replace (k * 1 + 0)%nat with k in Hlook by lia. exact Hlook.
    + exact Hlen.
    + exact Hlook.
Qed.

Lemma CellRange_get_iter_order_witness :
  (forall src, Some small_sheet = Some src ->
     2 = default (min_column src None) (Some 2)
     /\ 4 = default (max_column src None) None
     /\ 2 = default (min_row src None) (Some 2)
     /\ 3 = default (max_row src None) (Some 3))
  /\ exists coords : list (Z * Z),
    CellRangeOperand_get_iter (Some 2) (Some 2) (Some 3) None None
      (Some small_sheet)
    = Ok ((fun '(r, c) => SingleCellOperand r c None (Some small_sheet))
            <$> coords)
    /\ (2 = 3 ->
        length coords = Z.to_nat (4 + 1 - 2)
        /\ forall k : nat, (k < length coords)%nat ->
             coords !! k = Some (2, 2 + Z.of_nat k))
    /\ (2 = 4 ->
        length coords = Z.to_nat (3 + 1 - 2)
        /\ forall k : nat, (k < length coords)%nat ->
             coords !! k = Some (2 + Z.of_nat k, 2))
    /\ length coords = (Z.to_nat (3 + 1 - 2) * Z.to_nat (4 + 1 - 2))%nat
    /\ forall i j : nat,
         (i < Z.to_nat (3 + 1 - 2))%nat ->
         (j < Z.to_nat (4 + 1 - 2))%nat ->
         coords !! (i * Z.to_nat (4 + 1 - 2) + j)%nat
         = Some (2 + Z.of_nat i, 2 + Z.of_nat j).
Proof.
  apply (CellRange_get_iter_order (Some 2) (Some 2) (Some 3) None None
           (Some small_sheet) 2 4 2 3); reflexivity.
Defined.

(** The three shapes on a concrete sheet. *)
Example CellRange_single_row :
  CellRangeOperand_get_iter (Some 2) (Some 2) (Some 2) None None
    (Some small_sheet)
  = Ok [SingleCellOperand 2 2 None (Some small_sheet);
        SingleCellOperand 2 3 None (Some small_sheet);
        SingleCellOperand 2 4 None (Some small_sheet)].
Proof. reflexivity. Qed.

Example CellRange_single_column :
  CellRangeOperand_get_iter None (Some 3) None (Some 3) None
    (Some small_sheet)
  = Ok [SingleCellOperand 1 3 None (Some small_sheet);
        SingleCellOperand 2 3 None (Some small_sheet);
        SingleCellOperand 3 3 None (Some small_sheet)].
Proof. reflexivity. Qed.

Example CellRange_rectangle :
  CellRangeOperand_get_iter (Some 1) (Some 1) (Some 2) (Some 2) None None
  = Ok [SingleCellOperand 1 1 None None; SingleCellOperand 1 2 None None;
        SingleCellOperand 2 1 None None; SingleCellOperand 2 2 None None].
Proof. reflexivity. Qed.

(** ** [sum_func] *)

Section Sum.

Lemma sum_func_snoc args a :
  sum_func (args ++ [a])
  = if py_truthy a then result ← sum_func args; sum_func_arg result a
    else sum_func args.
Proof.
  unfold sum_func. rewrite filter_app, foldl_app.
  destruct (py_truthy a) eqn:E.
  - rewrite filter_cons_True by (by apply Is_true_true). done.
  - rewrite filter_cons_False by (by apply Is_true_false). done.
Qed.

Lemma sum_func_skip args1 a args2 :
  py_truthy a = false -> sum_func (args1 ++ a :: args2) = sum_func (args1 ++ args2).
Proof.
  intros E. unfold sum_func. rewrite !filter_app.
  rewrite filter_cons_False by (by apply Is_true_false). done.
Qed.

Lemma rows_of_lists (rs : list (list pyval)) : forall acc,
  foldl (fun acc row =>
           result ← acc;
           items ← py_iter row;
           s ← py_sum (filter (fun i => py_truthy i) items);
           py_add result s)
        acc (PList <$> rs)
  = foldl (fun acc r =>
             result ← acc;
             s ← py_sum (filter (fun i => py_truthy i) r);
             py_add result s)
          acc rs.
Proof.
  induction rs as [|r rs IH]; intros acc; [done|].
  rewrite fmap_cons. cbn [foldl]. rewrite IH. f_equal.
Qed.

End Sum.

(** C5.  [sum_func] keeps a running total that starts at the float 0.0;
    an argument that is falsy (None, 0, an empty string or list, False)
    is skipped wherever it stands; a truthy argument that is no list is
    added to the total as it is; a list whose first element is no list
    adds the sum of its truthy elements; a list whose first element is a
    list adds, element after element, the sum of the truthy items of the
    element taken as a row, whatever the elements after the first are (an
    empty string is an empty row, a number is no row and raises
    [TypeError]), so a list of rows (lists) adds, row after row, the sum
    of the truthy elements of the row; and the cell values 1, blank, 3,
    given one by one or as one list, sum to 4.0, the float of 4. *)
Theorem sum_func_running_total :
  sum_func [] = Ok (PFloat 0%float)
  /\ (forall args1 a args2,
        py_truthy a = false ->
        sum_func (args1 ++ a :: args2) = sum_func (args1 ++ args2))
  /\ (forall args a,
        py_truthy a = true -> is_list a = false ->
        sum_func (args ++ [a]) = result ← sum_func args; py_add result a)
  /\ (forall args x l,
        is_list x = false ->
        sum_func (args ++ [PList (x :: l)])
        = result ← sum_func args;
          s ← py_sum (filter (fun i => py_truthy i) (x :: l));
          py_add result s)
  /\ (forall args (r : list pyval) (rest : list pyval),
        sum_func (args ++ [PList (PList r :: rest)])
        = result ← sum_func args;
          foldl (fun acc row =>
                   result ← acc;
                   items ← py_iter row;
                   s ← py_sum (filter (fun i => py_truthy i) items);
                   py_add result s)
                (Ok result) (PList r :: rest))
  /\ sum_func [PList [PList [PInt 1]; PStr EmptyString]] = Ok (PFloat 1%float)
  /\ sum_func [PList [PList []; PInt 5]] = Raise TypeError
  /\ sum_func [PList [PInt 5; PList [PInt 1]]] = Raise TypeError
  /\ (forall args (r : list pyval) (rs : list (list pyval)),
        sum_func (args ++ [PList (PList <$> (r :: rs))])
        = result ← sum_func args;
          foldl (fun acc row =>
                   result ← acc;
                   s ← py_sum (filter (fun i => py_truthy i) row);
                   py_add result s)
                (Ok result) (r :: rs))
  /\ sum_func [PInt 1; PNone; PInt 3] = Ok (PFloat 4%float)
  /\ sum_func [PList [PInt 1; PNone; PInt 3]] = Ok (PFloat 4%float)
  /\ sum_func [PList [PInt 1; PStr EmptyString; PInt 3]] = Ok (PFloat 4%float)
  /\ sum_func [PList [PList [PInt 1; PNone]; PList [PInt 3]]]
     = Ok (PFloat 4%float)
  /\ float_of_int 4 = Ok 4%float.
Proof.
  split; [reflexivity|]. split; [apply sum_func_skip|].
  split; [|split; [|split; [|split; [|split; [|split; [|split]]]]]].
  - intros args a Ht Hl. rewrite sum_func_snoc, Ht.
    destruct (sum_func args) as [result|e]; [|done].
    destruct a; try discriminate Hl; reflexivity.
  - intros args x l Hx. rewrite sum_func_snoc. cbn [py_truthy length Nat.eqb negb].
    destruct (sum_func args) as [result|e]; [|done].
    destruct x; try discriminate Hx; reflexivity.
  - intros args r rest. rewrite sum_func_snoc.
    cbn [py_truthy length Nat.eqb negb].
    destruct (sum_func args) as [result|e]; reflexivity.
  - vm_compute. reflexivity.
  - vm_compute. reflexivity.
  - vm_compute. reflexivity.
  - intros args r rs. rewrite sum_func_snoc. rewrite fmap_cons.
    cbn [py_truthy length Nat.eqb negb].
    destruct (sum_func args) as [result|e]; [|done].
    cbn [mbind outcome_bind sum_func_arg].
    by rewrite <- (rows_of_lists (r :: rs)).
  - repeat split; vm_compute; reflexivity.
Qed.

Lemma sum_func_running_total_witness :
  sum_func ([PInt 2] ++ PInt 0 :: [PInt 5]) = sum_func ([PInt 2] ++ [PInt 5])
  /\ sum_func ([PInt 2] ++ [PBool true])
     = (result ← sum_func [PInt 2]; py_add result (PBool true))
  /\ sum_func ([PInt 2] ++ [PList (PInt 1 :: [PNone; PInt 3])])
     = (result ← sum_func [PInt 2];
        s ← py_sum (filter (fun i => py_truthy i) (PInt 1 :: [PNone; PInt 3]));
        py_add result s).
Proof.
  pose proof sum_func_running_total as (_ & H2 & H3 & H4 & _).
  split; [|split].
  - apply (H2 [PInt 2] (PInt 0) [PInt 5]). reflexivity.
  - apply (H3 [PInt 2] (PBool true)); reflexivity.
  - apply (H4 [PInt 2] (PInt 1) [PNone; PInt 3]). reflexivity.
Defined.

(** ** The result stack *)

Section Stack.

Lemma list_pop_nil {A} : list_pop (@nil A) = Raise IndexError.
Proof. reflexivity. Qed.

Lemma list_pop_snoc {A} (l : list A) x : list_pop (l ++ [x]) = Ok (x, l).
Proof. unfold list_pop. rewrite rev_app_distr. simpl. by rewrite rev_involutive. Qed.

(** Popping as many values as the stack has on top of [rest]. *)
Lemma pop_args_app args : forall rest,
  pop_args (length args) (rest ++ args) = Ok (rev args, rest).
Proof.
  induction args as [|x args IH] using rev_ind; intros rest.
  - simpl. by rewrite app_nil_r.
  - rewrite length_app, Nat.add_comm, app_assoc. cbn [length Nat.add pop_args].
    rewrite list_pop_snoc. cbn [mbind outcome_bind].
    rewrite IH. cbn [mbind outcome_bind].
    by rewrite rev_app_distr.
Qed.

(** Popping more values than the stack holds. *)
Lemma pop_args_short n : forall result,
  (length result < n)%nat -> pop_args n result = Raise IndexError.
Proof.
  induction n as [|n IH]; intros result H; [lia|].
  cbn [pop_args].
  destruct result as [|x result _] using rev_ind.
  - reflexivity.
  - rewrite list_pop_snoc. cbn [mbind outcome_bind].
    rewrite length_app in H. simpl in H.
    rewrite IH by lia. reflexivity.
Qed.

End Stack.

(** ** [RPN.calc] *)

Section Engine.
Variable token_eval : pyobj -> list pyobj -> outcome pyobj.
Variables (self : RPN) (ws_name : option string).

Lemma calc_loop_app tokens1 tokens2 : forall result,
  calc_loop token_eval self ws_name (tokens1 ++ tokens2) result
  = result' ← calc_loop token_eval self ws_name tokens1 result;
    calc_loop token_eval self ws_name tokens2 result'.
Proof.
  induction tokens1 as [|t tokens1 IH]; intros result; [done|].
  simpl.
  destruct (calc_token token_eval self ws_name result t) as [r|e]; [|done].
  apply IH.
Qed.

Lemma calc_token_other result token :
  is_token token = false ->
  calc_token token_eval self ws_name result token = Ok result.
Proof.
  unfold is_token, calc_token. intros H.
  apply orb_false_elim in H as [H1 H2]. rewrite H1.
  destruct token; try done.
Qed.

Lemma calc_loop_filter tokens : forall result,
  calc_loop token_eval self ws_name (List.filter is_token tokens) result
  = calc_loop token_eval self ws_name tokens result.
Proof.
  induction tokens as [|t tokens IH]; intros result; [done|].
  simpl. destruct (is_token t) eqn:E.
  - simpl.
    destruct (calc_token token_eval self ws_name result t); [apply IH|done].
  - rewrite calc_token_other by exact E. apply IH.
Qed.

(** An operation that finds its arguments on the stack. *)
Lemma calc_token_operation f_name operands_count rest args :
  length args = Z.to_nat operands_count ->
  calc_token token_eval self ws_name (rest ++ args)
    (Operation f_name operands_count)
  = v ← eval_token token_eval (Operation f_name operands_count) args;
    Ok (rest ++ [stamp self ws_name v]).
Proof.
  intros H. unfold calc_token. cbn [is_OperandLikeObject].
  rewrite <- H, pop_args_app, rev_involutive. reflexivity.
Qed.

(** An operation that does not. *)
Lemma calc_token_missing f_name operands_count result :
  (length result < Z.to_nat operands_count)%nat ->
  calc_token token_eval self ws_name result (Operation f_name operands_count)
  = Raise (OperandsMissing f_name (formula self)).
Proof.
  intros H. unfold calc_token. cbn [is_OperandLikeObject].
  by rewrite pop_args_short.
Qed.

End Engine.

(** The loop reads of [self] only the formula. *)
Lemma calc_token_formula token_eval self self' ws_name result token :
  formula self = formula self' ->
  calc_token token_eval self ws_name result token
  = calc_token token_eval self' ws_name result token.
Proof.
  intros H. unfold calc_token, stamp. rewrite H. reflexivity.
Qed.

Lemma calc_loop_formula token_eval self self' ws_name tokens :
  formula self = formula self' ->
  forall result,
    calc_loop token_eval self ws_name tokens result
    = calc_loop token_eval self' ws_name tokens result.
Proof.
  intros H. induction tokens as [|t tokens IH]; intros result; [done|].
  simpl. rewrite (calc_token_formula _ self self') by exact H.
  destruct (calc_token token_eval self' ws_name result t); [apply IH|done].
Qed.

Lemma calc_same_formula token_eval self self' ws_name source :
  formula self = formula self' ->
  ArrayOps.iter (rpn_array self) = ArrayOps.iter (rpn_array self') ->
  calc token_eval self ws_name source = calc token_eval self' ws_name source.
Proof.
  intros Hf Ht. unfold calc. rewrite Ht.
  rewrite (calc_loop_formula _ self self') by exact Hf. reflexivity.
Qed.

(** C2.  When the loop of [calc] reaches an operation of arity [k] with
    fewer than [k] values on the result stack, [calc] raises
    [OperandsMissing] with the function name of the operation and the
    formula of the sequence: the call fails, it returns no value, and in
    particular no error operand. *)
Theorem calc_operands_missing
    token_eval self ws_name source before f_name operands_count after result :
  ArrayOps.iter (rpn_array self)
    = before ++ Operation f_name operands_count :: after ->
  calc_loop token_eval self ws_name before [] = Ok result ->
  (length result < Z.to_nat operands_count)%nat ->
  calc token_eval self ws_name source
    = Raise (OperandsMissing f_name (formula self))
  /\ forall v, calc token_eval self ws_name source <> Ok v.
Proof.
  intros Htokens Hbefore Hshort.
  assert (H : calc token_eval self ws_name source
              = Raise (OperandsMissing f_name (formula self))).
  { unfold calc. rewrite Htokens, calc_loop_app, Hbefore.
    cbn [mbind outcome_bind calc_loop].
    by rewrite calc_token_missing. }
  split; [exact H|]. intros v. rewrite H. discriminate.
Qed.

Lemma calc_operands_missing_witness :
  calc (Operation_eval EXCEL_FUNCTIONS literal_value)
    (mkRPN "4+"
       (mkArray [SimpleOperand (PInt 4) None None; Operation "+" 2;
                 SimpleOperand (PInt 1) None None] (-1)))
    None None
  = Raise (OperandsMissing "+" "4+")
  /\ forall v,
       calc (Operation_eval EXCEL_FUNCTIONS literal_value)
         (mkRPN "4+"
            (mkArray [SimpleOperand (PInt 4) None None; Operation "+" 2;
                      SimpleOperand (PInt 1) None None] (-1)))
         None None
       <> Ok v.
Proof.
  apply (calc_operands_missing
           (Operation_eval EXCEL_FUNCTIONS literal_value)
           (mkRPN "4+"
              (mkArray [SimpleOperand (PInt 4) None None; Operation "+" 2;
                        SimpleOperand (PInt 1) None None] (-1)))
           None None
           [SimpleOperand (PInt 4) None None] "+"%string 2
           [SimpleOperand (PInt 1) None None]
           [SimpleOperand (PInt 4) None None]).
  - reflexivity.
  - reflexivity.
  - simpl. lia.
Defined.

(** C10.  A token that is neither an operand-like object nor an
    operation is skipped by [calc]: whatever [token.eval] is, the round
    of the loop leaves the stack as it was and raises nothing, and the
    result of [calc] is that of the sequence without such tokens. *)
Theorem calc_skips_other_tokens :
  (forall token_eval self ws_name result token,
     is_OperandLikeObject token = false -> is_Operation token = false ->
     calc_token token_eval self ws_name result token = Ok result)
  /\ (forall token_eval self ws_name source before token after,
        is_OperandLikeObject token = false -> is_Operation token = false ->
        calc token_eval
          (mkRPN (formula self)
             (mkArray (before ++ token :: after) (_pos (rpn_array self))))
          ws_name source
        = calc token_eval
            (mkRPN (formula self)
               (mkArray (before ++ after) (_pos (rpn_array self))))
            ws_name source)
  /\ (forall token_eval self ws_name source,
        calc token_eval self ws_name source
        = calc token_eval
            (mkRPN (formula self)
               (mkArray (List.filter is_token (_array (rpn_array self)))
                  (_pos (rpn_array self))))
            ws_name source).
Proof.
  split; [|split].
  - intros token_eval self ws_name result token H1 H2.
    apply calc_token_other. unfold is_token. by rewrite H1, H2.
  - intros token_eval self ws_name source before token after H1 H2.
    unfold calc. cbn [rpn_array ArrayOps.iter _array].
    rewrite <- (calc_loop_filter _ _ _ (before ++ token :: after)).
    rewrite <- (calc_loop_filter _ _ _ (before ++ after)).
    rewrite !List.filter_app. cbn [List.filter].
    unfold is_token at 2. rewrite H1, H2. cbn [orb].
    set (self1 := mkRPN _ (mkArray (before ++ token :: after) _)).
    set (self2 := mkRPN _ (mkArray (before ++ after) _)).
    by rewrite (calc_loop_formula token_eval self1 self2).
  - intros token_eval self ws_name source.
    unfold calc. cbn [rpn_array ArrayOps.iter _array].
    rewrite calc_loop_filter.
    set (self' := mkRPN _ _).
    by rewrite (calc_loop_formula token_eval self' self).
Qed.

Lemma calc_skips_other_tokens_witness :
  calc_token (Operation_eval EXCEL_FUNCTIONS literal_value) four_by_zero None
    [SimpleOperand (PInt 4) None None] (Plain (PStr "("))
  = Ok [SimpleOperand (PInt 4) None None].
Proof.
  apply (proj1 calc_skips_other_tokens); reflexivity.
Defined.

(** ** [RPN.handle_result] *)

Section HandleResult.

Lemma filter_errors_none (result : list pyobj) :
  Forall (fun o => is_ErrorOperand o = false) result ->
  filter (fun i => is_ErrorOperand i) result = [].
Proof.
  induction 1 as [|o result Ho _ IH]; [done|].
  rewrite filter_cons_False by (by apply Is_true_false). exact IH.
Qed.

Lemma filter_errors_first (before after : list pyobj) err :
  Forall (fun o => is_ErrorOperand o = false) before ->
  filter (fun i => is_ErrorOperand i) (before ++ Error err :: after)
  = Error err :: filter (fun i => is_ErrorOperand i) after.
Proof.
  intros H. rewrite filter_app, filter_errors_none by exact H.
  by rewrite filter_cons_True.
Qed.

Lemma foldl_snoc_app {X} (items : list X) : forall r,
  foldl (fun r item => r ++ [item]) r items = r ++ items.
Proof.
  induction items as [|x items IH]; intros r; simpl.
  - by rewrite app_nil_r.
  - rewrite IH. by rewrite <- app_assoc.
Qed.

Lemma max_key_empty : SetOperand.max_key ∅ = None.
Proof. unfold SetOperand.max_key. by rewrite map_to_list_empty. Qed.

(** [add_row] on a new set: the items become the row 1, all of them or
    none. *)
Lemma add_row_new c (result : list pyobj) :
  SetOperand.add_row c ∅ result
  = if forallb (operands_type c) result then Ok {[1 := result]}
    else Raise (RaisedOperand (new_error ValueErrorOperandCls)).
Proof.
  unfold SetOperand.add_row, SetOperand.add_many, SetOperand.check_type.
  assert (E : existsb (fun i => negb (operands_type c i)) result
              = negb (forallb (operands_type c) result)).
  { induction result as [|o result IH]; [done|].
    simpl. rewrite IH. by destruct (operands_type c o). }
  rewrite E. destruct (forallb (operands_type c) result); [|done].
  cbn [negb mbind outcome_bind]. rewrite max_key_empty.
  unfold SetOperand.row_of. rewrite lookup_empty. cbn [default].
  rewrite foldl_snoc_app. cbn [app]. by rewrite insert_empty.
Qed.

Lemma get_iter_one_row (result : list pyobj) :
  SetOperand.get_iter {[1 := result]} = result.
Proof.
  unfold SetOperand.get_iter. rewrite map_to_list_singleton.
  cbn [fmap list_fmap fst]. change (merge_sort Z.le [1]) with [1].
  rewrite bind_cons. unfold SetOperand.row_of.
  rewrite lookup_singleton_eq. cbn [default]. simpl mbind.
  by rewrite app_nil_r.
Qed.

Lemma build_set_new c (result : list pyobj) ws_name source :
  build_set c result ws_name source
  = if forallb (operands_type c) result
    then Ok (Value (new_set c ws_name source {[1 := result]}))
    else Ok (Value (Error (new_error ValueErrorOperandCls))).
Proof.
  unfold build_set. rewrite add_row_new.
  by destruct (forallb (operands_type c) result).
Qed.

(** An error operand on top of a stack without errors is the result. *)
Lemma handle_result_error_on_top self (rest : list pyobj) err ws_name source :
  Forall (fun o => is_ErrorOperand o = false) rest ->
  handle_result self (rest ++ [Error err]) ws_name source
  = Ok (Value (Error err)).
Proof.
  intros H. unfold handle_result.
  destruct (Nat.eqb (length (rest ++ [Error err])) 1) eqn:E.
  - apply Nat.eqb_eq in E. rewrite length_app in E. simpl in E.
    destruct rest as [|b rest]; [reflexivity|simpl in E; lia].
  - by rewrite filter_errors_first.
Qed.

End HandleResult.

(** C1.  When the function of an operation, called by [calc] with the
    arguments found on the stack, raises [ZeroDivisionError], the value
    pushed in place of the arguments is a [ZeroDivisionErrorOperand],
    whose display is [#DIV/0!], stamped with the formula and the
    worksheet name; when it raises [TypeError] or [ValueError], it is a
    [ValueErrorOperand], whose display is [#VALUE!].  This holds of one
    round of the loop and of [calc] on every postfix sequence, worksheet
    name and data source: when [calc] reaches the operation, it goes on
    through the rest of the sequence with the error operand on the stack
    in place of the arguments, and returns it as its result when the
    operation is the last token and no other error is on the stack.  In
    particular the postfix sequence [4 0 /] evaluates to the
    [ZeroDivisionErrorOperand], returned as the result of [calc], with
    literals that are integers as with literals that are floats. *)
Theorem calc_converts_faults :
  (forall token_eval self ws_name f_name operands_count rest args,
     length args = Z.to_nat operands_count ->
     (token_eval (Operation f_name operands_count) args
        = Raise ZeroDivisionError ->
      calc_token token_eval self ws_name (rest ++ args)
        (Operation f_name operands_count)
      = Ok (rest ++ [Error {| err_class := ZeroDivisionErrorOperandCls;
                              err_formula := Some (formula self);
                              err_ws_name := ws_name;
                              err_source := None;
                              err_name := None |}]))
     /\ (token_eval (Operation f_name operands_count) args = Raise TypeError
         \/ token_eval (Operation f_name operands_count) args
            = Raise ValueError ->
         calc_token token_eval self ws_name (rest ++ args)
           (Operation f_name operands_count)
         = Ok (rest ++ [Error {| err_class := ValueErrorOperandCls;
                                 err_formula := Some (formula self);
                                 err_ws_name := ws_name;
                                 err_source := None;
                                 err_name := None |}])))
  /\ (forall token_eval self ws_name source before f_name operands_count
             after rest args,
        ArrayOps.iter (rpn_array self)
          = before ++ Operation f_name operands_count :: after ->
        calc_loop token_eval self ws_name before [] = Ok (rest ++ args) ->
        length args = Z.to_nat operands_count ->
        (token_eval (Operation f_name operands_count) args
           = Raise ZeroDivisionError ->
         calc token_eval self ws_name source
         = (result ← calc_loop token_eval self ws_name after
                       (rest ++ [Error {| err_class := ZeroDivisionErrorOperandCls;
                        err_formula := Some (formula self);
                        err_ws_name := ws_name;
                        err_source := None;
                        err_name := None |}]);
            handle_result self result ws_name source)
         /\ (after = [] ->
             Forall (fun o => is_ErrorOperand o = false) rest ->
             calc token_eval self ws_name source
             = Ok (Value (Error {| err_class := ZeroDivisionErrorOperandCls;
                        err_formula := Some (formula self);
                        err_ws_name := ws_name;
                        err_source := None;
                        err_name := None |}))))
        /\ (token_eval (Operation f_name operands_count) args = Raise TypeError
            \/ token_eval (Operation f_name operands_count) args
               = Raise ValueError ->
            calc token_eval self ws_name source
            = (result ← calc_loop token_eval self ws_name after
                          (rest ++ [Error {| err_class := ValueErrorOperandCls;
                        err_formula := Some (formula self);
                        err_ws_name := ws_name;
                        err_source := None;
                        err_name := None |}]);
               handle_result self result ws_name source)
            /\ (after = [] ->
                Forall (fun o => is_ErrorOperand o = false) rest ->
                calc token_eval self ws_name source
                = Ok (Value (Error {| err_class := ValueErrorOperandCls;
                        err_formula := Some (formula self);
                        err_ws_name := ws_name;
                        err_source := None;
                        err_name := None |})))))
  /\ string_value ZeroDivisionErrorOperandCls = "#DIV/0!"%string
  /\ string_value ValueErrorOperandCls = "#VALUE!"%string
  /\ divide_func (PInt 4) (PInt 0) = Raise ZeroDivisionError
  /\ (forall ws_name source,
        calc (Operation_eval EXCEL_FUNCTIONS literal_value) four_by_zero
          ws_name source
        = Ok (Value (Error {| err_class := ZeroDivisionErrorOperandCls;
                              err_formula := Some "4/0"%string;
                              err_ws_name := ws_name;
                              err_source := None;
                              err_name := None |})))
  /\ (forall ws_name source,
        calc (Operation_eval EXCEL_FUNCTIONS literal_value)
          (mkRPN "4/0"
             (mkArray [SimpleOperand (PFloat 4%float) None None;
                       SimpleOperand (PFloat 0%float) None None;
                       Operation "/" 2] (-1)))
          ws_name source
        = Ok (Value (Error {| err_class := ZeroDivisionErrorOperandCls;
                              err_formula := Some "4/0"%string;
                              err_ws_name := ws_name;
                              err_source := None;
                              err_name := None |}))).
Proof.
  split; [|split; [|repeat split]].
  - intros token_eval self ws_name f_name operands_count rest args Hlen.
    split.
    + intros H. rewrite calc_token_operation by exact Hlen.
      unfold eval_token. rewrite H. reflexivity.
    + intros H. rewrite calc_token_operation by exact Hlen.
      unfold eval_token. destruct H as [-> | ->]; reflexivity.
  - intros token_eval self ws_name source before f_name operands_count
      after rest args Htokens Hbefore Hlen.
    assert (Hcalc : forall v,
              eval_token token_eval (Operation f_name operands_count) args
                = Ok v ->
              calc token_eval self ws_name source
              = (result ← calc_loop token_eval self ws_name after
                            (rest ++ [stamp self ws_name v]);
                 handle_result self result ws_name source)).
    { intros v Hv. unfold calc.
      rewrite Htokens, calc_loop_app, Hbefore.
      cbn [mbind outcome_bind calc_loop].
      rewrite calc_token_operation by exact Hlen.
      rewrite Hv. reflexivity. }
    split.
    + intros H.
      assert (Hv : eval_token token_eval (Operation f_name operands_count) args
                   = Ok (Error (new_error ZeroDivisionErrorOperandCls)))
        by (unfold eval_token; by rewrite H).
      split; [exact (Hcalc _ Hv)|].
      intros -> Hrest. rewrite (Hcalc _ Hv). cbn [calc_loop mbind outcome_bind].
      by apply handle_result_error_on_top.
    + intros H.
      assert (Hv : eval_token token_eval (Operation f_name operands_count) args
                   = Ok (Error (new_error ValueErrorOperandCls)))
        by (unfold eval_token; by destruct H as [-> | ->]).
      split; [exact (Hcalc _ Hv)|].
      intros -> Hrest. rewrite (Hcalc _ Hv). cbn [calc_loop mbind outcome_bind].
      by apply handle_result_error_on_top.
Qed.

Lemma calc_converts_faults_witness :
  calc_token (Operation_eval EXCEL_FUNCTIONS literal_value) four_by_zero
    (Some "Sheet1"%string)
    ([SimpleOperand (PInt 7) None None]
       ++ [SimpleOperand (PInt 4) None None; SimpleOperand (PInt 0) None None])
    (Operation "/" 2)
  = Ok ([SimpleOperand (PInt 7) None None]
          ++ [Error {| err_class := ZeroDivisionErrorOperandCls;
                       err_formula := Some (formula four_by_zero);
                       err_ws_name := Some "Sheet1"%string;
                       err_source := None;
                       err_name := None |}])
  /\ calc (Operation_eval EXCEL_FUNCTIONS literal_value)
       (mkRPN "7+4/0"
          (mkArray [SingleCellOperand 1 1 None None;
                    SimpleOperand (PInt 4) None None;
                    SimpleOperand (PInt 0) None None;
                    Operation "/" 2] (-1)))
       (Some "Sheet1"%string) None
     = Ok (Value (Error {| err_class := ZeroDivisionErrorOperandCls;
                           err_formula := Some "7+4/0"%string;
                           err_ws_name := Some "Sheet1"%string;
                           err_source := None;
                           err_name := None |})).
Proof.
  pose proof calc_converts_faults as (Hround & Hcalc & _).
  split.
  - apply (proj1 (Hround (Operation_eval EXCEL_FUNCTIONS literal_value)
                    four_by_zero (Some "Sheet1"%string) "/"%string 2
                    [SimpleOperand (PInt 7) None None]
                    [SimpleOperand (PInt 4) None None;
                     SimpleOperand (PInt 0) None None]
                    eq_refl)).
    reflexivity.
  - apply (proj1 (Hcalc (Operation_eval EXCEL_FUNCTIONS literal_value)
                    (mkRPN "7+4/0"
                       (mkArray [SingleCellOperand 1 1 None None;
                                 SimpleOperand (PInt 4) None None;
                                 SimpleOperand (PInt 0) None None;
                                 Operation "/" 2] (-1)))
                    (Some "Sheet1"%string) None
                    [SingleCellOperand 1 1 None None;
                     SimpleOperand (PInt 4) None None;
                     SimpleOperand (PInt 0) None None]
                    "/"%string 2 []
                    [SingleCellOperand 1 1 None None]
                    [SimpleOperand (PInt 4) None None;
                     SimpleOperand (PInt 0) None None]
                    eq_refl eq_refl eq_refl)).
    + reflexivity.
    + reflexivity.
    + repeat constructor.
Defined.

(** C3.  When the final stack holds an [ErrorOperand], [handle_result]
    returns the first one in the order of the stack, whatever the other
    values are, for a stack of two or more values as for a stack of
    one. *)
Theorem handle_result_first_error self before err after ws_name source :
  Forall (fun o => is_ErrorOperand o = false) before ->
  handle_result self (before ++ Error err :: after) ws_name source
  = Ok (Value (Error err)).
Proof.
  intros H. unfold handle_result.
  destruct (Nat.eqb (length (before ++ Error err :: after)) 1) eqn:E.
  - apply Nat.eqb_eq in E. rewrite length_app in E. simpl in E.
    destruct before as [|b before]; [|simpl in E; lia].
    destruct after as [|a after]; [|simpl in E; lia].
    reflexivity.
  - by rewrite filter_errors_first.
Qed.

Lemma handle_result_first_error_witness :
  handle_result four_by_zero
    ([SingleCellOperand 1 1 None None; Plain (PInt 3)]
       ++ Error (new_error ZeroDivisionErrorOperandCls)
       :: [Error (new_error ValueErrorOperandCls);
           SingleCellOperand 1 2 None None])
    None None
  = Ok (Value (Error (new_error ZeroDivisionErrorOperandCls))).
Proof.
  apply (handle_result_first_error four_by_zero
           [SingleCellOperand 1 1 None None; Plain (PInt 3)]).
  repeat constructor.
Defined.

(** C4, as stated, fails on two cells left on the stack: the set that
    [handle_result] returns holds both in one row, the row 1, where a
    row for each value gives the rows 1 and 2. *)
Lemma handle_result_not_a_row_per_value :
  handle_result four_by_zero
    [SingleCellOperand 1 1 None None; SingleCellOperand 1 2 None None]
    None None
  = Ok (Value (CellSetOperand None None
                 {[1 := [SingleCellOperand 1 1 None None;
                         SingleCellOperand 1 2 None None]]}))
  /\ each_value_a_new_row CellSetOperandCls
       [SingleCellOperand 1 1 None None; SingleCellOperand 1 2 None None]
     = Ok {[1 := [SingleCellOperand 1 1 None None];
            2 := [SingleCellOperand 1 2 None None]]}
  /\ handle_result four_by_zero
       [SingleCellOperand 1 1 None None; SingleCellOperand 1 2 None None]
       None None
     <> (_items ← each_value_a_new_row CellSetOperandCls
                    [SingleCellOperand 1 1 None None;
                     SingleCellOperand 1 2 None None];
         Ok (Value (CellSetOperand None None _items))).
Proof.
  split; [|split].
  - vm_compute. reflexivity.
  - vm_compute. reflexivity.
  - vm_compute. discriminate.
Qed.

(** C4, amended.  For a final stack of two or more values (or none left
    to count as one), none of them an error, whose first value is a
    [SingleCellOperand] (respectively a [SimpleOperand]):
    [handle_result] returns a [CellSetOperand] (respectively a
    [SimpleSetOperand]) that holds all the values, in the order of the
    stack, together as its one row, the row 1, when they all are of the
    class of the first; otherwise it returns, and does not raise, a
    [ValueErrorOperand]. *)
Theorem handle_result_builds_one_row self result ws_name source first :
  length result <> 1%nat ->
  Forall (fun o => is_ErrorOperand o = false) result ->
  result !! 0%nat = Some first ->
  (is_SingleCellOperand first = true ->
   handle_result self result ws_name source
   = if forallb is_SingleCellOperand result
     then Ok (Value (CellSetOperand ws_name source {[1 := result]}))
     else Ok (Value (Error (new_error ValueErrorOperandCls))))
  /\ (is_SimpleOperand first = true ->
      handle_result self result ws_name source
      = if forallb is_SimpleOperand result
        then Ok (Value (SimpleSetOperand ws_name source {[1 := result]}))
        else Ok (Value (Error (new_error ValueErrorOperandCls))))
  /\ SetOperand.get_iter {[1 := result]} = result.
Proof.
  intros Hlen Herr Hfirst.
  assert (Hhead : py_getitem result 0 = Ok first).
  { destruct result as [|o result]; [done|].
    simpl in Hfirst. injection Hfirst as ->. reflexivity. }
  assert (E : Nat.eqb (length result) 1 = false) by by apply Nat.eqb_neq.
  split; [|split].
  - intros Hcell. unfold handle_result.
    rewrite E, filter_errors_none, Hhead by exact Herr.
    cbn [mbind outcome_bind]. rewrite Hcell.
    by rewrite build_set_new.
  - intros Hsimple. unfold handle_result.
    rewrite E, filter_errors_none, Hhead by exact Herr.
    cbn [mbind outcome_bind]. rewrite Hsimple.
    destruct (is_SingleCellOperand first) eqn:Hcell.
    { by destruct first. }
    by rewrite build_set_new.
  - apply get_iter_one_row.
Qed.

Lemma handle_result_builds_one_row_witness :
  (is_SingleCellOperand (SingleCellOperand 1 1 None None) = true ->
   handle_result four_by_zero
     [SingleCellOperand 1 1 None None; SimpleOperand (PInt 2) None None]
     (Some "Sheet1"%string) None
   = if forallb is_SingleCellOperand
          [SingleCellOperand 1 1 None None; SimpleOperand (PInt 2) None None]
     then Ok (Value (CellSetOperand (Some "Sheet1"%string) None
                       {[1 := [SingleCellOperand 1 1 None None;
                               SimpleOperand (PInt 2) None None]]}))
     else Ok (Value (Error (new_error ValueErrorOperandCls))))
  /\ (is_SimpleOperand (SingleCellOperand 1 1 None None) = true ->
      handle_result four_by_zero
        [SingleCellOperand 1 1 None None; SimpleOperand (PInt 2) None None]
        (Some "Sheet1"%string) None
      = if forallb is_SimpleOperand
             [SingleCellOperand 1 1 None None;
              SimpleOperand (PInt 2) None None]
        then Ok (Value (SimpleSetOperand (Some "Sheet1"%string) None
                          {[1 := [SingleCellOperand 1 1 None None;
                                  SimpleOperand (PInt 2) None None]]}))
        else Ok (Value (Error (new_error ValueErrorOperandCls))))
  /\ SetOperand.get_iter
       {[1 := [SingleCellOperand 1 1 None None;
               SimpleOperand (PInt 2) None None]]}
     = [SingleCellOperand 1 1 None None; SimpleOperand (PInt 2) None None].
Proof.
  apply (handle_result_builds_one_row four_by_zero
           [SingleCellOperand 1 1 None None; SimpleOperand (PInt 2) None None]
           (Some "Sheet1"%string) None (SingleCellOperand 1 1 None None)).
  - simpl. lia.
  - repeat constructor.
  - reflexivity.
Defined.

(** The examples of the specification: two cells fold into a set, a cell
    and a scalar into a [ValueErrorOperand]. *)
Example handle_result_two_cells :
  handle_result four_by_zero
    [SingleCellOperand 1 1 None None; SingleCellOperand 2 1 None None]
    None None
  = Ok (Value (CellSetOperand None None
                 {[1 := [SingleCellOperand 1 1 None None;
                         SingleCellOperand 2 1 None None]]})).
Proof. vm_compute. reflexivity. Qed.

Example handle_result_cell_and_scalar :
  handle_result four_by_zero
    [SingleCellOperand 1 1 None None; SimpleOperand (PInt 2) None None]
    None None
  = Ok (Value (Error (new_error ValueErrorOperandCls))).
Proof. vm_compute. reflexivity. Qed.

(** * Further properties of the code *)

(** ** The column codec, beyond the round trip *)

Section CodecMore.

Lemma col_str_to_index_suffix_bad l : forall acc i str_len,
  forallb is_upper l = false ->
  foldl (fun acc '(i, s) =>
           total ← acc;
           k ← str_index ascii_uppercase s;
           Ok (total + (k + 1) * 26 ^ (str_len - i)))
        (Ok acc) (enumerate l i)
  = Raise ValueError.
Proof.
  induction l as [|c l IH]; intros acc i str_len H; [discriminate|].
  simpl in H. simpl. destruct (is_upper c) eqn:Hc.
  - rewrite (str_index_upper c Hc). simpl. by apply IH.
  - rewrite (str_index_not_upper c Hc). simpl.
    apply col_str_to_index_raise_sticks.
Qed.

Lemma col_str_to_index_not_name s :
  is_column_name s = false -> col_str_to_index s = Raise ValueError.
Proof.
  intros H. unfold col_str_to_index.
  change (Z.of_nat (String.length ascii_uppercase)) with 26.
  by apply col_str_to_index_suffix_bad.
Qed.

Lemma col_str_to_index_Ok_name s n :
  col_str_to_index s = Ok n ->
  is_column_name s = true /\ n = weighted (list_ascii_of_string s).
Proof.
  intros H. destruct (is_column_name s) eqn:E.
  - rewrite col_str_to_index_weighted in H by exact E. by injection H as <-.
  - rewrite col_str_to_index_not_name in H by exact E. discriminate.
Qed.

Lemma list_ascii_of_string_app s t :
  list_ascii_of_string (s +:+ t)
  = list_ascii_of_string s ++ list_ascii_of_string t.
Proof. induction s as [|a s IH]; simpl; [done|]. by rewrite IH. Qed.

Lemma weighted_bounds l :
  forallb is_upper l = true ->
  26 ^ Z.of_nat (length l) - 1 <= 25 * weighted l
  /\ 25 * weighted l <= 26 * (26 ^ Z.of_nat (length l) - 1).
Proof.
  induction l as [|c l IH]; intros H.
  - simpl. lia.
  - simpl in H. apply andb_prop in H as [Hc Hl].
    apply is_upper_bounds in Hc. specialize (IH Hl).
    cbn [weighted length]. rewrite Nat2Z.inj_succ, Z.pow_succ_r by lia.
    assert (1 <= 26 ^ Z.of_nat (length l))
      by (pose proof (Z.pow_pos_nonneg 26 (Z.of_nat (length l))
                        ltac:(lia) ltac:(lia)); lia).
    nia.
Qed.

Lemma loop_negative fuel : forall i chars,
  i < 0 -> col_index_to_str_loop fuel i chars = None.
Proof.
  induction fuel as [|fuel IH]; intros i chars Hi; [done|].
  pose proof (Z.div_mod i 26 ltac:(lia)) as Hdm.
  pose proof (Z.mod_pos_bound i 26 ltac:(lia)) as Hb.
  cbn [col_index_to_str_loop].
  change (Z.of_nat (String.length ascii_uppercase)) with 26.
  destruct (i =? 0) eqn:E; [lia|].
  destruct (i mod 26 =? 0) eqn:E0.
  - destruct (getitem_digit 26 ltac:(lia)) as (c & -> & _).
    apply IH. lia.
  - destruct (getitem_digit (i mod 26) ltac:(lia)) as (c & -> & _).
    apply IH. lia.
Qed.

End CodecMore.

(** X1.  [col_str_to_index] is defined exactly on the strings of letters
    [A]..[Z]: on such a string, the empty one included, it returns an
    index that is not negative (0 for the empty string), and on a string
    with any other character (a lowercase letter, a digit, a [$]) it
    raises [ValueError]. *)
Theorem col_str_to_index_domain s :
  (if is_column_name s
   then exists n, col_str_to_index s = Ok n /\ 0 <= n
                  /\ (n = 0 <-> s = EmptyString)
   else col_str_to_index s = Raise ValueError).
Proof.
  destruct (is_column_name s) eqn:E.
  - exists (weighted (list_ascii_of_string s)).
    split; [by apply col_str_to_index_weighted|].
    split; [by apply weighted_nonneg|].
    destruct (weighted_bounds (list_ascii_of_string s) E) as [Hlo _].
    destruct s as [|c s]; [done|]. split; [|discriminate].
    intros H0. exfalso. rewrite H0 in Hlo. cbn [list_ascii_of_string length] in Hlo.
    rewrite Nat2Z.inj_succ, Z.pow_succ_r in Hlo by lia.
    pose proof (Z.pow_pos_nonneg 26
                  (Z.of_nat (length (list_ascii_of_string s)))
                  ltac:(lia) ltac:(lia)). lia.
  - by apply col_str_to_index_not_name.
Qed.

(** X2.  [col_index_to_str] does not return on a negative index: its
    loop is still running after any number of rounds; and on the index 0
    it returns the empty name at once. *)
Theorem col_index_to_str_negative_diverges :
  (forall fuel i, i < 0 -> col_index_to_str fuel i = None)
  /\ (forall fuel, col_index_to_str (S fuel) 0 = Some (Ok EmptyString)).
Proof.
  split.
  - intros fuel i Hi. unfold col_index_to_str. by rewrite loop_negative.
  - reflexivity.
Qed.

Lemma col_index_to_str_negative_diverges_witness :
  col_index_to_str 1000 (-1) = None.
Proof. apply (proj1 col_index_to_str_negative_diverges 1000%nat (-1)). lia. Defined.

(** X3.  [col_str_to_index] is injective: two strings on which it
    returns the same index are the same string. *)
Theorem col_str_to_index_injective s1 s2 n :
  col_str_to_index s1 = Ok n -> col_str_to_index s2 = Ok n -> s1 = s2.
Proof.
  intros H1 H2.
  apply col_str_to_index_Ok_name in H1 as [N1 E1].
  apply col_str_to_index_Ok_name in H2 as [N2 E2].
  pose proof (loop_weighted (list_ascii_of_string s1)
                (S (length (list_ascii_of_string s1)
                    + length (list_ascii_of_string s2))) [] N1 ltac:(lia)) as L1.
  pose proof (loop_weighted (list_ascii_of_string s2)
                (S (length (list_ascii_of_string s1)
                    + length (list_ascii_of_string s2))) [] N2 ltac:(lia)) as L2.
  rewrite <- E1 in L1. rewrite <- E2 in L2. rewrite L1 in L2.
  injection L2 as L2. simpl in L2.
  apply (f_equal (@rev ascii)) in L2. rewrite !rev_involutive in L2.
  rewrite <- (string_of_list_ascii_of_string s1),
          <- (string_of_list_ascii_of_string s2).
  by rewrite L2.
Qed.

Lemma col_str_to_index_injective_witness : "AB"%string = "AB"%string.
Proof.
  apply (col_str_to_index_injective "AB" "AB" 28); reflexivity.
Defined.

(** X4.  Appending a letter to a column name multiplies its index by 26
    and adds the rank of the letter ([A] = 1 ... [Z] = 26); putting a
    letter in front of a name of [k] letters adds the rank times
    [26 ^ k]. *)
Theorem col_str_to_index_append_letter s c n :
  col_str_to_index s = Ok n -> is_upper c = true ->
  col_str_to_index (s +:+ String c EmptyString)
    = Ok (26 * n + (letter_value c + 1))
  /\ col_str_to_index (String c s)
     = Ok ((letter_value c + 1) * 26 ^ Z.of_nat (String.length s) + n).
Proof.
  intros H Hc. apply col_str_to_index_Ok_name in H as [N ->]. split.
  - rewrite col_str_to_index_weighted.
    + rewrite list_ascii_of_string_app. cbn [list_ascii_of_string].
      by rewrite weighted_snoc.
    + unfold is_column_name in *.
      rewrite list_ascii_of_string_app, forallb_app, N. simpl. by rewrite Hc.
  - rewrite col_str_to_index_weighted.
    + simpl. by rewrite length_list_ascii.
    + unfold is_column_name in *. simpl. by rewrite Hc, N.
Qed.

Lemma col_str_to_index_append_letter_witness :
  col_str_to_index ("Z" +:+ String "Z" EmptyString)
    = Ok (26 * 26 + (letter_value "Z" + 1))
  /\ col_str_to_index (String "Z" "Z")
     = Ok ((letter_value "Z" + 1) * 26 ^ Z.of_nat (String.length "Z") + 26).
Proof.
  apply (col_str_to_index_append_letter "Z" "Z"%char 26); reflexivity.
Defined.

(** X5.  The index of a name of [k] letters lies between
    [(26 ^ k - 1) / 25] (the name [A...A]) and [26 * (26 ^ k - 1) / 25]
    (the name [Z...Z]); so a shorter name always has a smaller index than
    a longer one. *)
Theorem col_str_to_index_length_bounds s1 n1 :
  col_str_to_index s1 = Ok n1 ->
  (26 ^ Z.of_nat (String.length s1) - 1 <= 25 * n1
   /\ 25 * n1 <= 26 * (26 ^ Z.of_nat (String.length s1) - 1))
  /\ forall s2 n2,
       col_str_to_index s2 = Ok n2 ->
       (String.length s1 < String.length s2)%nat -> n1 < n2.
Proof.
  intros H1. apply col_str_to_index_Ok_name in H1 as [N1 ->].
  pose proof (weighted_bounds _ N1) as B1.
  rewrite length_list_ascii in B1. split; [exact B1|].
  intros s2 n2 H2 Hlen. apply col_str_to_index_Ok_name in H2 as [N2 ->].
  pose proof (weighted_bounds _ N2) as B2.
  rewrite length_list_ascii in B2.
  assert (26 * 26 ^ Z.of_nat (String.length s1)
          <= 26 ^ Z.of_nat (String.length s2)).
  { rewrite <- Z.pow_succ_r by lia. apply Z.pow_le_mono_r; lia. }
  lia.
Qed.

Lemma col_str_to_index_length_bounds_witness :
  (26 ^ Z.of_nat (String.length "ZZ") - 1 <= 25 * 702
   /\ 25 * 702 <= 26 * (26 ^ Z.of_nat (String.length "ZZ") - 1))
  /\ forall s2 n2,
       col_str_to_index s2 = Ok n2 ->
       (String.length "ZZ" < String.length s2)%nat -> 702 < n2.
Proof.
  apply (col_str_to_index_length_bounds "ZZ" 702). reflexivity.
Defined.

(** ** The cursor sequence, beyond the lower bound *)

Section CursorMore.
Context {A : Type}.
Implicit Types (self : Array A) (l : list A).

Lemma py_getitem_in_range l (i : Z) :
  0 <= i < Z.of_nat (length l) ->
  exists x, l !! Z.to_nat i = Some x /\ py_getitem l i = Ok x.
Proof.
  intros H. unfold py_getitem.
  destruct (i <? 0) eqn:E; [lia|].
  destruct ((0 <=? i) && (i <? Z.of_nat (length l))) eqn:E2; [|lia].
  destruct (lookup_lt_is_Some_2 l (Z.to_nat i) ltac:(lia)) as [x Hx].
  exists x. by rewrite Hx.
Qed.

Lemma py_getitem_beyond l (i : Z) :
  Z.of_nat (length l) <= i -> py_getitem l i = Raise IndexError.
Proof.
  intros H. unfold py_getitem.
  destruct (i <? 0) eqn:E; [lia|].
  destruct ((0 <=? i) && (i <? Z.of_nat (length l))) eqn:E2; [lia|done].
Qed.

Lemma is_ended_false self :
  ArrayOps.is_ended self = false <-> _pos self + 1 < Z.of_nat (length (_array self)).
Proof. unfold ArrayOps.is_ended. lia. Qed.

Lemma run_op_within self (o : ArrayOps.op A) :
  backward_step o = true ->
  -1 <= _pos self < Z.of_nat (length (_array self)) ->
  -1 <= _pos (ArrayOps.run_op self o)
        < Z.of_nat (length (_array (ArrayOps.run_op self o)))
  /\ _array self `prefix_of` _array (ArrayOps.run_op self o).
Proof.
  intros Ho H. destruct o as [|step| |v]; simpl in *.
  - unfold ArrayOps.next. destruct (ArrayOps.is_ended self) eqn:E; [done|].
    apply is_ended_false in E. simpl. split; [lia|done].
  - rewrite step_back_pos, step_back_array.
    destruct (_pos self + 1 <? step) eqn:E; split; try done; lia.
  - split; [lia|done].
  - rewrite length_app. simpl. split; [lia|]. by apply prefix_app_r.
Qed.

Lemma run_within (ops : list (ArrayOps.op A)) : forall self,
  forallb backward_step ops = true ->
  -1 <= _pos self < Z.of_nat (length (_array self)) ->
  -1 <= _pos (ArrayOps.run self ops)
        < Z.of_nat (length (_array (ArrayOps.run self ops)))
  /\ _array self `prefix_of` _array (ArrayOps.run self ops).
Proof.
  unfold ArrayOps.run.
  induction ops as [|o ops IH]; intros self Hops H; simpl; [done|].
  simpl in Hops. apply andb_prop in Hops as [Ho Hops].
  destruct (run_op_within self o Ho H) as [H1 P1].
  destruct (IH _ Hops H1) as [H2 P2].
  split; [exact H2|]. by etrans.
Qed.

(** [k] calls of [next] on a cursor with at least [k] elements ahead. *)
Lemma run_nexts (k : nat) : forall self,
  _pos self + Z.of_nat k < Z.of_nat (length (_array self)) ->
  ArrayOps.run self (replicate k ArrayOps.Next)
  = mkArray (_array self) (_pos self + Z.of_nat k).
Proof.
  unfold ArrayOps.run.
  induction k as [|k IH]; intros self H.
  - simpl. destruct self. simpl. f_equal. lia.
  - cbn [replicate foldl ArrayOps.run_op]. unfold ArrayOps.next.
    assert (E : ArrayOps.is_ended self = false) by (apply is_ended_false; lia).
    rewrite E. cbn [snd]. rewrite IH by (simpl; lia).
    simpl. f_equal. lia.
Qed.

End CursorMore.

(** X6.  A cursor that starts within its sequence (in particular a new
    one) stays within it under any sequence of [next], [reset], [append]
    and [step_back] by steps that are not negative: the position stays
    between -1 and the last index, and the sequence only grows.  In such
    a state [current] and [prev] return without raising, and [next]
    either returns an element or raises [StopIteration], never
    [IndexError]. *)
Theorem Array_cursor_within_bounds (A : Type) (self : Array A) ops :
  -1 <= _pos self < Z.of_nat (length (_array self)) ->
  forallb backward_step ops = true ->
  let self' := ArrayOps.run self ops in
  -1 <= _pos self' < Z.of_nat (length (_array self'))
  /\ _array self `prefix_of` _array self'
  /\ (exists x, ArrayOps.current self' = Ok x)
  /\ (exists x, ArrayOps.prev self' = Ok x)
  /\ ((ArrayOps.next self').1 = Raise StopIteration
      \/ exists x, (ArrayOps.next self').1 = Ok x).
Proof.
  intros H Hops self'.
  destruct (run_within ops self Hops H) as [Hb Hp]. fold self' in Hb, Hp.
  split; [exact Hb|]. split; [exact Hp|]. split; [|split].
  - unfold ArrayOps.current. destruct (0 <=? _pos self') eqn:E; [|by eexists].
    destruct (py_getitem_in_range (_array self') (_pos self') ltac:(lia))
      as (x & _ & ->). by eexists.
  - unfold ArrayOps.prev. destruct (0 <? _pos self') eqn:E; [|by eexists].
    destruct (py_getitem_in_range (_array self') (_pos self' - 1) ltac:(lia))
      as (x & _ & ->). by eexists.
  - unfold ArrayOps.next. destruct (ArrayOps.is_ended self') eqn:E; [by left|].
    apply is_ended_false in E. right. simpl.
    destruct (py_getitem_in_range (_array self') (_pos self' + 1) ltac:(lia))
      as (x & _ & ->). by eexists.
Qed.

Lemma Array_cursor_within_bounds_witness :
  let self' := ArrayOps.run (ArrayOps.init (Some [7; 8]))
                 [ArrayOps.Next; ArrayOps.Next; ArrayOps.StepBack 5;
                  ArrayOps.Append 9; ArrayOps.Next] in
  -1 <= _pos self' < Z.of_nat (length (_array self'))
  /\ _array (ArrayOps.init (Some [7; 8])) `prefix_of` _array self'
  /\ (exists x, ArrayOps.current self' = Ok x)
  /\ (exists x, ArrayOps.prev self' = Ok x)
  /\ ((ArrayOps.next self').1 = Raise StopIteration
      \/ exists x, (ArrayOps.next self').1 = Ok x).
Proof.
  apply (Array_cursor_within_bounds Z (ArrayOps.init (Some [7; 8]))).
  - simpl. lia.
  - reflexivity.
Defined.

(** X7.  Reading a new cursor with [next] yields the elements of the
    sequence in order: after [k] calls the next call returns the element
    of index [k] and leaves the cursor on it; after as many calls as
    there are elements the cursor is ended and every further call raises
    [StopIteration]. *)
Theorem Array_next_reads_in_order (A : Type) (l : list A) :
  (forall (k : nat) x,
     l !! k = Some x ->
     ArrayOps.next (ArrayOps.run (ArrayOps.init (Some l))
                      (replicate k ArrayOps.Next))
     = (Ok x, mkArray l (Z.of_nat k)))
  /\ (forall k : nat,
        (length l <= k)%nat ->
        ArrayOps.run (ArrayOps.init (Some l)) (replicate k ArrayOps.Next)
        = mkArray l (Z.of_nat (length l) - 1)
        /\ ArrayOps.next (mkArray l (Z.of_nat (length l) - 1))
           = (Raise StopIteration, mkArray l (Z.of_nat (length l) - 1))).
Proof.
  split.
  - intros k x Hx. pose proof (lookup_lt_Some _ _ _ Hx) as Hk.
    rewrite run_nexts by (simpl; lia). simpl.
    unfold ArrayOps.next.
    assert (E : ArrayOps.is_ended (mkArray l (-1 + Z.of_nat k)) = false)
      by (apply is_ended_false; simpl; lia).
    rewrite E. simpl.
    replace (-1 + Z.of_nat k + 1) with (Z.of_nat k) by lia.
    destruct (py_getitem_in_range l (Z.of_nat k) ltac:(lia)) as (y & Hy & ->).
    rewrite Nat2Z.id in Hy. congruence.
  - intros k Hk.
    assert (Hend : ArrayOps.next (mkArray l (Z.of_nat (length l) - 1))
                   = (Raise StopIteration, mkArray l (Z.of_nat (length l) - 1))).
    { apply next_ended. unfold ArrayOps.is_ended. simpl. lia. }
    split; [|exact Hend].
    replace k with (length l + (k - length l))%nat by lia.
    rewrite replicate_add. unfold ArrayOps.run. rewrite foldl_app.
    fold (ArrayOps.run (ArrayOps.init (Some l)) (replicate (length l) ArrayOps.Next)).
    destruct l as [|a l'] eqn:El.
    + simpl. induction (k - 0)%nat as [|n IH]; [done|].
      cbn [replicate foldl ArrayOps.run_op]. exact IH.
    + rewrite <- El in *.
      assert (Hrun : ArrayOps.run (ArrayOps.init (Some l))
                       (replicate (length l) ArrayOps.Next)
                     = mkArray l (Z.of_nat (length l) - 1)).
      { destruct (length l) as [|n] eqn:En; [subst l; done|].
        replace (S n) with (n + 1)%nat by lia.
        rewrite replicate_add. unfold ArrayOps.run. rewrite foldl_app.
        fold (ArrayOps.run (ArrayOps.init (Some l)) (replicate n ArrayOps.Next)).
        rewrite run_nexts by (simpl; lia). simpl.
        unfold ArrayOps.next.
        assert (E : ArrayOps.is_ended (mkArray l (-1 + Z.of_nat n)) = false)
          by (apply is_ended_false; simpl; lia).
        rewrite E. simpl. f_equal. lia. }
      rewrite Hrun.
      induction (k - length l)%nat as [|n IH]; [done|].
      cbn [replicate foldl ArrayOps.run_op]. rewrite Hend. exact IH.
Qed.

Lemma Array_next_reads_in_order_witness :
  ArrayOps.next (ArrayOps.run (ArrayOps.init (Some [7; 8; 9]))
                   (replicate 2 ArrayOps.Next))
  = (Ok 9, mkArray [7; 8; 9] (Z.of_nat 2)).
Proof.
  apply (proj1 (Array_next_reads_in_order Z [7; 8; 9]) 2%nat 9). reflexivity.
Defined.

(** X8.  [step_back] undoes [next]: from a cursor at or after position
    -1 with at least [k] elements ahead, [k] calls of [next] followed by
    [step_back(k)] give the cursor back as it was. *)
Theorem Array_step_back_undoes_next (A : Type) (self : Array A) (k : nat) :
  -1 <= _pos self ->
  _pos self + Z.of_nat k < Z.of_nat (length (_array self)) ->
  ArrayOps.step_back (ArrayOps.run self (replicate k ArrayOps.Next))
    (Z.of_nat k)
  = self.
Proof.
  intros Hlo Hk. rewrite run_nexts by exact Hk.
  unfold ArrayOps.step_back. simpl.
  destruct (_pos self + Z.of_nat k + 1 <? Z.of_nat k) eqn:E; [lia|].
  destruct self as [arr pos]. simpl. f_equal. lia.
Qed.

Lemma Array_step_back_undoes_next_witness :
  ArrayOps.step_back
    (ArrayOps.run (mkArray [7; 8; 9] 0) (replicate 2 ArrayOps.Next))
    (Z.of_nat 2)
  = mkArray [7; 8; 9] 0.
Proof.
  apply (Array_step_back_undoes_next Z (mkArray [7; 8; 9] 0) 2); simpl; lia.
Defined.

(** X9.  After a call of [next] that returns an element, on a cursor at
    or after position -1, [current] returns that element and [prev]
    returns what [current] returned before the call ([None] when the
    cursor was before the first element). *)
Theorem Array_current_prev_after_next (A : Type) (self self' : Array A) x :
  -1 <= _pos self ->
  ArrayOps.next self = (Ok x, self') ->
  ArrayOps.current self' = Ok (Some x)
  /\ ArrayOps.prev self' = ArrayOps.current self.
Proof.
  intros Hlo. unfold ArrayOps.next.
  destruct (ArrayOps.is_ended self) eqn:E; [discriminate|].
  intros H. injection H as Hx <-. simpl in Hx.
  unfold ArrayOps.current, ArrayOps.prev. simpl.
  destruct (0 <=? _pos self + 1) eqn:E1; [|lia].
  rewrite Hx. split; [done|].
  replace (_pos self + 1 - 1) with (_pos self) by lia.
  destruct (0 <? _pos self + 1) eqn:E2, (0 <=? _pos self) eqn:E3;
    try done; lia.
Qed.

Lemma Array_current_prev_after_next_witness :
  ArrayOps.current (mkArray [7; 8; 9] 1) = Ok (Some 8)
  /\ ArrayOps.prev (mkArray [7; 8; 9] 1) = ArrayOps.current (mkArray [7; 8; 9] 0).
Proof.
  apply (Array_current_prev_after_next Z (mkArray [7; 8; 9] 0)
           (mkArray [7; 8; 9] 1) 8); [simpl; lia|reflexivity].
Defined.

(** X10.  [step_back] by a negative step moves the cursor forward
    without any check: when that brings it to or past the length of the
    sequence, the cursor is ended, [next] raises [StopIteration] and
    [current] raises [IndexError]. *)
Theorem Array_negative_step_back_overruns (A : Type) (self : Array A) step :
  step < 0 ->
  Z.of_nat (length (_array self)) <= _pos self - step ->
  let self' := ArrayOps.step_back self step in
  self' = mkArray (_array self) (_pos self - step)
  /\ ArrayOps.is_ended self' = true
  /\ ArrayOps.next self' = (Raise StopIteration, self')
  /\ ArrayOps.current self' = Raise IndexError.
Proof.
  intros Hstep Hlen self'.
  assert (E : self' = mkArray (_array self) (_pos self - step)).
  { subst self'. unfold ArrayOps.step_back.
    destruct (_pos self + 1 <? step) eqn:E; [|done].
    exfalso. assert (0 <= Z.of_nat (length (_array self))) by lia. lia. }
  assert (Hend : ArrayOps.is_ended self' = true).
  { rewrite E. unfold ArrayOps.is_ended. simpl. lia. }
  split; [exact E|]. split; [exact Hend|]. split; [by apply next_ended|].
  rewrite E. unfold ArrayOps.current. simpl.
  destruct (0 <=? _pos self - step) eqn:E1; [|lia].
  by rewrite py_getitem_beyond.
Qed.

Lemma Array_negative_step_back_overruns_witness :
  let self' := ArrayOps.step_back (mkArray [7; 8] 0) (-3) in
  self' = mkArray [7; 8] (0 - -3)
  /\ ArrayOps.is_ended self' = true
  /\ ArrayOps.next self' = (Raise StopIteration, self')
  /\ ArrayOps.current self' = Raise IndexError.
Proof.
  apply (Array_negative_step_back_overruns Z (mkArray [7; 8] 0) (-3));
    simpl; lia.
Defined.

(** ** Set operands *)

Section SetMore.
Implicit Types (m : gmap Z (list pyobj)) (c : SetClass).

Lemma check_type_forallb c (items : list pyobj) :
  SetOperand.check_type c items
  = if forallb (operands_type c) items then Ok tt
    else Raise (RaisedOperand (new_error ValueErrorOperandCls)).
Proof.
  unfold SetOperand.check_type.
  assert (E : existsb (fun i => negb (operands_type c i)) items
              = negb (forallb (operands_type c) items)).
  { induction items as [|o items IH]; [done|].
    simpl. rewrite IH. by destruct (operands_type c o). }
  rewrite E. by destruct (forallb (operands_type c) items).
Qed.

Lemma add_many_spec c m (items : list pyobj) row :
  SetOperand.add_many c m items row
  = if forallb (operands_type c) items
    then Ok (<[row := SetOperand.row_of m row ++ items]> m)
    else Raise (RaisedOperand (new_error ValueErrorOperandCls)).
Proof.
  unfold SetOperand.add_many. rewrite check_type_forallb.
  destruct (forallb (operands_type c) items); [|done].
  cbn [mbind outcome_bind]. by rewrite foldl_snoc_app.
Qed.

(** The key of the row that [add_row] opens. *)
Lemma max_key_spec m :
  match SetOperand.max_key m with
  | None => m = ∅
  | Some k => is_Some (m !! k) /\ forall j, is_Some (m !! j) -> j <= k
  end.
Proof.
  unfold SetOperand.max_key.
  destruct ((map_to_list m).*1) as [|k ks] eqn:E.
  - apply fmap_nil_inv in E. by apply map_to_list_empty_iff.
  - assert (Hmax : forall (l : list Z) a,
               (foldl Z.max a l = a \/ foldl Z.max a l ∈ l)
               /\ a <= foldl Z.max a l
               /\ forall j, j ∈ l -> j <= foldl Z.max a l).
    { induction l as [|b l IH]; intros a; simpl.
      - split; [by left|]. split; [lia|]. intros j Hj. by apply elem_of_nil in Hj.
      - destruct (IH (Z.max a b)) as (H1 & H2 & H3).
        split; [|split].
        + destruct H1 as [H1|H1]; [|right; by right].
          rewrite H1.
          destruct (Z.max_spec a b) as [[_ ->]|[_ ->]]; [right|]; by left.
        + lia.
        + intros j Hj. apply elem_of_cons in Hj as [->|Hj]; [lia|by apply H3]. }
    assert (Hkeys : forall j, j ∈ k :: ks <-> is_Some (m !! j)).
    { intros j. rewrite <- E, list_elem_of_fmap. split.
      - intros ([j' x] & -> & Hin). apply elem_of_map_to_list in Hin. by eexists.
      - intros [x Hx]. exists (j, x). split; [done|]. by apply elem_of_map_to_list. }
    destruct (Hmax ks k) as (H1 & H2 & H3). split.
    + apply Hkeys. destruct H1 as [-> | H1]; [by left|by right].
    + intros j Hj. apply Hkeys in Hj. apply elem_of_cons in Hj as [->|Hj]; auto.
Qed.

Lemma add_row_spec c m (items : list pyobj) :
  exists r,
    m !! r = None /\ (forall j, is_Some (m !! j) -> j < r)
    /\ (m = ∅ -> r = 1)
    /\ (m <> ∅ -> is_Some (m !! (r - 1)))
    /\ SetOperand.add_row c m items
       = if forallb (operands_type c) items then Ok (<[r := items]> m)
         else Raise (RaisedOperand (new_error ValueErrorOperandCls)).
Proof.
  unfold SetOperand.add_row. rewrite check_type_forallb.
  pose proof (max_key_spec m) as Hk.
  destruct (SetOperand.max_key m) as [k|].
  - destruct Hk as [Hin Hle]. exists (k + 1).
    assert (Hnone : m !! (k + 1) = None).
    { destruct (m !! (k + 1)) eqn:E; [|done].
      specialize (Hle (k + 1) ltac:(by eexists)). lia. }
    split; [exact Hnone|]. split; [intros j Hj; specialize (Hle j Hj); lia|].
    split; [intros ->; rewrite lookup_empty in Hin; by destruct Hin|].
    split; [intros _; by replace (k + 1 - 1) with k by lia|].
    destruct (forallb (operands_type c) items) eqn:E; [|done].
    cbn [mbind outcome_bind]. rewrite add_many_spec, E.
    unfold SetOperand.row_of. by rewrite Hnone.
  - subst m. exists 1.
    split; [apply lookup_empty|].
    split; [intros j Hj; rewrite lookup_empty in Hj; by destruct Hj|].
    split; [done|]. split; [done|].
    destruct (forallb (operands_type c) items) eqn:E; [|done].
    cbn [mbind outcome_bind]. rewrite add_many_spec, E.
    unfold SetOperand.row_of. by rewrite lookup_empty.
Qed.

(** The keys of a set in the order of [get_iter]. *)
Lemma sorted_keys_elem m j :
  j ∈ merge_sort Z.le (map_to_list m).*1 <-> is_Some (m !! j).
Proof.
  rewrite merge_sort_Permutation, list_elem_of_fmap. split.
  - intros ([j' x] & -> & Hin). apply elem_of_map_to_list in Hin. by eexists.
  - intros [x Hx]. exists (j, x). split; [done|]. by apply elem_of_map_to_list.
Qed.

Lemma sorted_keys_insert_top m r (x : list pyobj) :
  (forall j, is_Some (m !! j) -> j < r) ->
  merge_sort Z.le (map_to_list (<[r := x]> m)).*1
  = merge_sort Z.le (map_to_list m).*1 ++ [r].
Proof.
  intros Htop.
  assert (Hnone : m !! r = None).
  { destruct (m !! r) eqn:E; [|done].
    specialize (Htop r ltac:(by eexists)). lia. }
  apply (StronglySorted_unique Z.le).
  - apply StronglySorted_merge_sort; apply _.
  - apply StronglySorted_app_2.
    + intros x1 x2 H1 H2. apply sorted_keys_elem in H1.
      apply list_elem_of_singleton in H2 as ->. specialize (Htop x1 H1). lia.
    + apply StronglySorted_merge_sort; apply _.
    + repeat constructor.
  - rewrite !merge_sort_Permutation, map_to_list_insert by exact Hnone.
    rewrite fmap_cons. simpl. by rewrite Permutation_cons_append.
Qed.

Lemma sorted_keys_insert_bottom m r (x : list pyobj) :
  (forall j, is_Some (m !! j) -> r < j) ->
  merge_sort Z.le (map_to_list (<[r := x]> m)).*1
  = r :: merge_sort Z.le (map_to_list m).*1.
Proof.
  intros Hbot.
  assert (Hnone : m !! r = None).
  { destruct (m !! r) eqn:E; [|done].
    specialize (Hbot r ltac:(by eexists)). lia. }
  apply (StronglySorted_unique Z.le).
  - apply StronglySorted_merge_sort; apply _.
  - apply StronglySorted_cons. split.
    + apply Forall_forall. intros j Hj. apply sorted_keys_elem in Hj.
      specialize (Hbot j Hj). lia.
    + apply StronglySorted_merge_sort; apply _.
  - rewrite !merge_sort_Permutation, map_to_list_insert by exact Hnone.
    by rewrite fmap_cons.
Qed.

Lemma bind_rows_insert_other m r (x : list pyobj) (ks : list Z) :
  r ∉ ks ->
  ks ≫= SetOperand.row_of (<[r := x]> m) = ks ≫= SetOperand.row_of m.
Proof.
  intros Hr. apply Forall_bind_ext, Forall_forall. intros j Hj.
  unfold SetOperand.row_of. rewrite lookup_insert_ne; [done|].
  intros ->. done.
Qed.

(** A row put above all the rows of a set is iterated last, a row put
    below all of them first. *)
Lemma get_iter_insert_top m r (x : list pyobj) :
  (forall j, is_Some (m !! j) -> j < r) ->
  SetOperand.get_iter (<[r := x]> m) = SetOperand.get_iter m ++ x.
Proof.
  intros Htop. unfold SetOperand.get_iter.
  rewrite sorted_keys_insert_top by exact Htop.
  rewrite bind_app, bind_rows_insert_other.
  - f_equal. rewrite bind_cons. simpl mbind. rewrite app_nil_r.
    unfold SetOperand.row_of. by rewrite lookup_insert_eq.
  - intros Hin. apply sorted_keys_elem in Hin. specialize (Htop r Hin). lia.
Qed.

Lemma get_iter_insert_bottom m r (x : list pyobj) :
  (forall j, is_Some (m !! j) -> r < j) ->
  SetOperand.get_iter (<[r := x]> m) = x ++ SetOperand.get_iter m.
Proof.
  intros Hbot. unfold SetOperand.get_iter.
  rewrite sorted_keys_insert_bottom by exact Hbot.
  rewrite bind_cons, bind_rows_insert_other.
  - f_equal. unfold SetOperand.row_of. by rewrite lookup_insert_eq.
  - intros Hin. apply sorted_keys_elem in Hin. specialize (Hbot r Hin). lia.
Qed.

(** The last row of a set, taken apart. *)
Lemma get_iter_last_row m r :
  (forall j, is_Some (m !! j) -> j <= r) ->
  SetOperand.get_iter m
  = SetOperand.get_iter (delete r m) ++ SetOperand.row_of m r.
Proof.
  intros Htop.
  assert (Hdel : forall j, is_Some (delete r m !! j) -> j < r).
  { intros j Hj. apply lookup_delete_is_Some in Hj as [Hne Hj].
    specialize (Htop j Hj). lia. }
  unfold SetOperand.row_of at 1. destruct (m !! r) as [y|] eqn:E.
  - change (default [] (Some y)) with y.
    rewrite <- (get_iter_insert_top (delete r m) r y Hdel).
    by rewrite insert_delete_id.
  - rewrite delete_id by exact E. cbn [default]. by rewrite app_nil_r.
Qed.

Lemma get_iter_first_row m r :
  (forall j, is_Some (m !! j) -> r <= j) ->
  SetOperand.get_iter m
  = SetOperand.row_of m r ++ SetOperand.get_iter (delete r m).
Proof.
  intros Hbot.
  assert (Hdel : forall j, is_Some (delete r m !! j) -> r < j).
  { intros j Hj. apply lookup_delete_is_Some in Hj as [Hne Hj].
    specialize (Hbot j Hj). lia. }
  unfold SetOperand.row_of at 1. destruct (m !! r) as [y|] eqn:E.
  - change (default [] (Some y)) with y.
    rewrite <- (get_iter_insert_bottom (delete r m) r y Hdel).
    by rewrite insert_delete_id.
  - rewrite delete_id by exact E. done.
Qed.

End SetMore.

Section SetInvariant.
Implicit Types (m : gmap Z (list pyobj)) (c : SetClass).

Lemma rows_typed_insert c m r (row : list pyobj) :
  rows_typed c m -> forallb (operands_type c) row = true ->
  rows_typed c (<[r := row]> m).
Proof.
  intros Hm Hrow j row' Hj.
  destruct (decide (r = j)) as [->|Hne].
  - rewrite lookup_insert_eq in Hj. by injection Hj as <-.
  - rewrite lookup_insert_ne in Hj by exact Hne. by apply (Hm j).
Qed.

Lemma rows_typed_row_of c m r :
  rows_typed c m -> forallb (operands_type c) (SetOperand.row_of m r) = true.
Proof.
  intros Hm. unfold SetOperand.row_of.
  destruct (m !! r) as [row|] eqn:E; [by apply (Hm r)|done].
Qed.

(** [add_cell] on an item that is no list: the item must be of the
    class of the set. *)
Lemma add_cell_spec c m (item : pyobj) row :
  adds_list_cell (AddCell item row) = false ->
  SetOperand.add_cell c m item row
  = if operands_type c item
    then Ok (<[row := SetOperand.row_of m row ++ [item]]> m)
    else Raise (RaisedOperand (new_error ValueErrorOperandCls)).
Proof.
  intros Hlist. unfold SetOperand.add_cell, SetOperand.check_type_item.
  destruct item as [v| | | | | | | | |]; try by destruct (operands_type c _).
  destruct v; try discriminate Hlist; by destruct c.
Qed.

Lemma add_cell_typed c m (item : pyobj) row :
  operands_type c item = true ->
  SetOperand.add_cell c m item row
  = Ok (<[row := SetOperand.row_of m row ++ [item]]> m).
Proof.
  intros H. rewrite add_cell_spec, H; [done|].
  destruct item as [v| | | | | | | | |]; try done.
  by destruct c.
Qed.

(** [add_cell] on an item that is a list: the empty list passes the
    check and is appended itself, a list of plain values does not
    pass. *)
Lemma add_cell_list c m (l : list pyval) row :
  SetOperand.add_cell c m (Plain (PList l)) row
  = match l with
    | [] => Ok (<[row := SetOperand.row_of m row ++ [Plain (PList [])]]> m)
    | _ :: _ => Raise (RaisedOperand (new_error ValueErrorOperandCls))
    end.
Proof.
  unfold SetOperand.add_cell, SetOperand.check_type_item, SetOperand.check_type.
  destruct l as [|v l]; [done|]. by destruct c.
Qed.

Lemma run_set_op_typed c m (o : set_op) m' :
  adds_list_cell o = false ->
  rows_typed c m -> run_set_op c m o = Ok m' -> rows_typed c m'.
Proof.
  intros Ho Hm. destruct o as [item row|items row|items]; simpl.
  - rewrite add_cell_spec by exact Ho.
    destruct (operands_type c item) eqn:E; [|done].
    intros [= <-]. apply rows_typed_insert; [done|].
    rewrite forallb_app, rows_typed_row_of by done. simpl. by rewrite E.
  - rewrite add_many_spec.
    destruct (forallb (operands_type c) items) eqn:E; [|done].
    intros [= <-]. apply rows_typed_insert; [done|].
    by rewrite forallb_app, rows_typed_row_of, E.
  - destruct (add_row_spec c m items) as (r & _ & _ & _ & _ & ->).
    destruct (forallb (operands_type c) items) eqn:E; [|done].
    intros [= <-]. by apply rows_typed_insert.
Qed.

Lemma run_set_ops_raise c (ops : list set_op) e :
  foldl (fun acc o => _items ← acc; run_set_op c _items o) (Raise e) ops
  = Raise e.
Proof. induction ops as [|o ops IH]; [done|]. exact IH. Qed.

Lemma run_set_ops_typed c (ops : list set_op) : forall m m',
  forallb (fun o => negb (adds_list_cell o)) ops = true ->
  rows_typed c m -> run_set_ops c m ops = Ok m' -> rows_typed c m'.
Proof.
  unfold run_set_ops.
  induction ops as [|o ops IH]; intros m m' Hops Hm H; simpl in H.
  - by injection H as <-.
  - simpl in Hops. apply andb_prop in Hops as [Ho Hops].
    apply negb_true_iff in Ho.
    destruct (run_set_op c m o) as [m1|e] eqn:E.
    + apply (IH m1 m'); [exact Hops| |exact H].
      by apply (run_set_op_typed c m o).
    + cbn [mbind outcome_bind] in H. rewrite run_set_ops_raise in H.
      discriminate.
Qed.

Lemma get_iter_typed c m :
  rows_typed c m -> forallb (operands_type c) (SetOperand.get_iter m) = true.
Proof.
  intros Hm. unfold SetOperand.get_iter.
  induction (merge_sort Z.le (map_to_list m).*1) as [|k ks IH]; [done|].
  rewrite bind_cons, forallb_app, IH, rows_typed_row_of by done. done.
Qed.

Lemma run_set_ops_snoc c m (ops : list set_op) o :
  run_set_ops c m (ops ++ [o])
  = m' ← run_set_ops c m ops; run_set_op c m' o.
Proof. unfold run_set_ops. by rewrite foldl_app. Qed.

End SetInvariant.

(** X11.  A set operand filled through [add_many], [add_row] and
    [add_cell] with items that are no lists never mixes kinds: whatever
    sequence of such calls goes through without raising, on a set whose
    rows hold items of the class of the set (a new set in particular),
    every row of the result, and so everything that iterating the set
    yields, is of that class.  [add_cell] with a list is the way past the
    check: the empty list passes it on any set and is put into the row
    itself, after which the set yields an item that is not of its class;
    a list of plain values that is not empty raises a
    [ValueErrorOperand]. *)
Theorem SetOperand_items_have_type c (m0 : gmap Z (list pyobj)) ops m :
  (forall r row, m0 !! r = Some row ->
     forallb (operands_type c) row = true) ->
  forallb (fun o => negb (adds_list_cell o)) ops = true ->
  run_set_ops c m0 ops = Ok m ->
  ((forall r row, m !! r = Some row -> forallb (operands_type c) row = true)
   /\ forallb (operands_type c) (SetOperand.get_iter m) = true)
  /\ (forall row,
        exists m',
          SetOperand.add_cell c m (Plain (PList [])) row = Ok m'
          /\ m' !! row
             = Some (SetOperand.row_of m row ++ [Plain (PList [])])
          /\ forallb (operands_type c) (SetOperand.get_iter m') = false)
  /\ (forall v l row,
        SetOperand.add_cell c m (Plain (PList (v :: l))) row
        = Raise (RaisedOperand (new_error ValueErrorOperandCls))).
Proof.
  intros H0 Hops Hrun.
  pose proof (run_set_ops_typed c ops m0 m Hops H0 Hrun) as Hm.
  split; [split; [exact Hm|by apply get_iter_typed]|]. split.
  - intros row. rewrite add_cell_list. eexists. split; [reflexivity|].
    split; [apply lookup_insert_eq|].
    destruct (forallb _ (SetOperand.get_iter _)) eqn:E; [|done].
    exfalso. rewrite forallb_forall in E.
    assert (Hin : In (Plain (PList []))
                    (SetOperand.get_iter
                       (<[row := SetOperand.row_of m row ++ [Plain (PList [])]]>
                          m))).
    { apply list_elem_of_In. unfold SetOperand.get_iter.
      apply list_elem_of_bind. exists row. split.
      - unfold SetOperand.row_of. rewrite lookup_insert_eq. cbn [default].
        apply elem_of_app. right. by left.
      - apply sorted_keys_elem. rewrite lookup_insert_eq. by eexists. }
    specialize (E _ Hin). by destruct c.
  - intros v l row. by rewrite add_cell_list.
Qed.

Lemma SetOperand_items_have_type_witness :
  ((forall r row,
      ({[2 := [SingleCellOperand 1 1 None None;
               SingleCellOperand 1 2 None None];
         0 := [SingleCellOperand 5 5 None None]]} : gmap Z (list pyobj))
        !! r = Some row ->
      forallb (operands_type CellSetOperandCls) row = true)
   /\ forallb (operands_type CellSetOperandCls)
        (SetOperand.get_iter
           ({[2 := [SingleCellOperand 1 1 None None;
                    SingleCellOperand 1 2 None None];
              0 := [SingleCellOperand 5 5 None None]]}
              : gmap Z (list pyobj)))
      = true)
  /\ (forall row,
        exists m',
          SetOperand.add_cell CellSetOperandCls
            ({[2 := [SingleCellOperand 1 1 None None;
                     SingleCellOperand 1 2 None None];
               0 := [SingleCellOperand 5 5 None None]]}
               : gmap Z (list pyobj))
            (Plain (PList [])) row
          = Ok m'
          /\ m' !! row
             = Some (SetOperand.row_of
                       ({[2 := [SingleCellOperand 1 1 None None;
                                SingleCellOperand 1 2 None None];
                          0 := [SingleCellOperand 5 5 None None]]}
                          : gmap Z (list pyobj)) row
                     ++ [Plain (PList [])])
          /\ forallb (operands_type CellSetOperandCls)
               (SetOperand.get_iter m') = false)
  /\ (forall v l row,
        SetOperand.add_cell CellSetOperandCls
          ({[2 := [SingleCellOperand 1 1 None None;
                   SingleCellOperand 1 2 None None];
             0 := [SingleCellOperand 5 5 None None]]}
             : gmap Z (list pyobj))
          (Plain (PList (v :: l))) row
        = Raise (RaisedOperand (new_error ValueErrorOperandCls))).
Proof.
  apply (SetOperand_items_have_type CellSetOperandCls ∅
           [AddMany [SingleCellOperand 1 1 None None] 2;
            AddCell (SingleCellOperand 5 5 None None) 0;
            AddCell (SingleCellOperand 1 2 None None) 2]).
  - intros r row H. rewrite lookup_empty in H. discriminate.
  - reflexivity.
  - vm_compute. reflexivity.
Defined.

(** X12.  [add_row] succeeds exactly when every item is of the class of
    the set and raises a [ValueErrorOperand] otherwise.  When it succeeds
    it opens a row of its own, above all the rows of the set (row 1 in a
    new set), leaves the rows that were there as they are, and the items
    come last, in their order, when the set is iterated. *)
Theorem SetOperand_add_row_appends c (m : gmap Z (list pyobj)) items :
  if forallb (operands_type c) items
  then exists m' r,
         SetOperand.add_row c m items = Ok m'
         /\ m !! r = None /\ m' !! r = Some items
         /\ (forall j, is_Some (m !! j) -> j < r)
         /\ (forall j, j <> r -> m' !! j = m !! j)
         /\ SetOperand.get_iter m' = SetOperand.get_iter m ++ items
  else SetOperand.add_row c m items
       = Raise (RaisedOperand (new_error ValueErrorOperandCls)).
Proof.
  destruct (add_row_spec c m items) as (r & Hnone & Htop & _ & _ & ->).
  destruct (forallb (operands_type c) items); [|done].
  exists (<[r := items]> m), r.
  split; [done|]. split; [done|].
  split; [apply lookup_insert_eq|]. split; [done|].
  split; [intros j Hj; by apply lookup_insert_ne|].
  by apply get_iter_insert_top.
Qed.

(** X13.  Rows are kept in the order they were added: after [add_row]
    was called on a new set with one list of items after the other, all
    of the class of the set, the list number [i] (from 0) is the row
    [i + 1], there is no other row, and iterating the set yields the
    lists one after the other. *)
Theorem SetOperand_rows_in_insertion_order c (rows : list (list pyobj)) :
  Forall (fun row => forallb (operands_type c) row = true) rows ->
  exists m,
    run_set_ops c ∅ (AddRow <$> rows) = Ok m
    /\ (forall k, m !! k
                  = if decide (1 <= k) then rows !! Z.to_nat (k - 1) else None)
    /\ SetOperand.get_iter m = concat rows.
Proof.
  induction rows as [|row rows IH] using rev_ind; intros Hrows.
  - exists ∅. split; [done|]. split; [|done].
    intros k. rewrite lookup_empty. by destruct (decide (1 <= k)).
  - apply Forall_app in Hrows as [Hrows Hrow].
    apply Forall_inv in Hrow. simpl in Hrow.
    destruct (IH Hrows) as (m & Hrun & Hkeys & Hiter).
    destruct (add_row_spec c m row) as (r & Hnone & Htop & Hempty & Hne & Hadd).
    rewrite Hrow in Hadd.
    assert (Hr : r = Z.of_nat (length rows) + 1).
    { destruct rows as [|row0 rows' _] using rev_ind.
      - assert (m = ∅) as ->.
        { apply map_empty. intros k. rewrite Hkeys.
          destruct (decide (1 <= k)); [apply lookup_nil|done]. }
        simpl. by apply Hempty.
      - assert (Hlast : is_Some (m !! Z.of_nat (length (rows' ++ [row0])))).
        { rewrite Hkeys, length_app. simpl.
          destruct (decide (1 <= Z.of_nat (length rows' + 1))); [|lia].
          replace (Z.to_nat (Z.of_nat (length rows' + 1) - 1))
            with (length rows') by lia.
          rewrite lookup_app_r, Nat.sub_diag by lia. by eexists. }
        pose proof (Htop _ Hlast) as Hlt.
        assert (Hm : m <> ∅).
        { intros ->. rewrite lookup_empty in Hlast. by destruct Hlast. }
        specialize (Hne Hm). rewrite Hkeys in Hne.
        destruct (decide (1 <= r - 1)); [|by destruct Hne].
        apply lookup_lt_is_Some in Hne. lia. }
    exists (<[r := row]> m). split; [|split].
    + rewrite fmap_app. change (AddRow <$> [row]) with [AddRow row].
      rewrite run_set_ops_snoc, Hrun. exact Hadd.
    + intros k. destruct (decide (r = k)) as [<-|Hk].
      * rewrite lookup_insert_eq. destruct (decide (1 <= r)); [|lia].
        replace (Z.to_nat (r - 1)) with (length rows) by lia.
        by rewrite lookup_app_r, Nat.sub_diag by lia.
      * rewrite lookup_insert_ne, Hkeys by exact Hk.
        destruct (decide (1 <= k)); [|done].
        destruct (decide (Z.to_nat (k - 1) < length rows)%nat).
        -- by rewrite lookup_app_l.
        -- rewrite !lookup_ge_None_2; [done|rewrite length_app; simpl; lia|lia].
    + rewrite get_iter_insert_top by exact Htop.
      rewrite Hiter, concat_app. simpl. by rewrite app_nil_r.
Qed.

Lemma SetOperand_rows_in_insertion_order_witness :
  exists m,
    run_set_ops CellSetOperandCls ∅
      (AddRow <$> [[SingleCellOperand 1 1 None None]; [];
                   [SingleCellOperand 2 1 None None;
                    SingleCellOperand 2 2 None None]])
    = Ok m
    /\ (forall k, m !! k
                  = if decide (1 <= k)
                    then [[SingleCellOperand 1 1 None None]; [];
                          [SingleCellOperand 2 1 None None;
                           SingleCellOperand 2 2 None None]]
                           !! Z.to_nat (k - 1)
                    else None)
    /\ SetOperand.get_iter m
       = concat [[SingleCellOperand 1 1 None None]; [];
                 [SingleCellOperand 2 1 None None;
                  SingleCellOperand 2 2 None None]].
Proof.
  apply (SetOperand_rows_in_insertion_order CellSetOperandCls).
  repeat constructor.
Defined.

(** X14.  Where the items of [add_many] and [add_cell] come in the
    iteration depends on the row number alone, not on the time of the
    call: items added to a row that is at or above all the rows of the
    set come last, items added to a row below all the rows come first.
    So a cell added with the default row 0 to a set filled by [add_row]
    (rows 1, 2, ...) is iterated before everything added earlier. *)
Theorem SetOperand_add_many_order c (m : gmap Z (list pyobj)) items row :
  forallb (operands_type c) items = true ->
  exists m',
    SetOperand.add_many c m items row = Ok m'
    /\ ((forall j, is_Some (m !! j) -> j <= row) ->
        SetOperand.get_iter m' = SetOperand.get_iter m ++ items)
    /\ ((forall j, is_Some (m !! j) -> row < j) ->
        SetOperand.get_iter m' = items ++ SetOperand.get_iter m)
    /\ forall item,
         items = [item] -> SetOperand.add_cell c m item row = Ok m'.
Proof.
  intros Hitems. rewrite add_many_spec, Hitems.
  exists (<[row := SetOperand.row_of m row ++ items]> m).
  split; [done|]. split; [|split].
  - intros Htop. rewrite <- insert_delete_eq.
    rewrite get_iter_insert_top.
    + rewrite app_assoc. by rewrite <- get_iter_last_row.
    + intros j Hj. apply lookup_delete_is_Some in Hj as [Hne Hj].
      specialize (Htop j Hj). lia.
  - intros Hbot.
    assert (Hnone : m !! row = None).
    { destruct (m !! row) eqn:E; [|done].
      specialize (Hbot row ltac:(by eexists)). lia. }
    unfold SetOperand.row_of. rewrite Hnone. cbn [default app].
    by apply get_iter_insert_bottom.
  - intros item ->. apply add_cell_typed.
    simpl in Hitems. by rewrite andb_true_r in Hitems.
Qed.

Lemma SetOperand_add_many_order_witness :
  exists m',
    SetOperand.add_many CellSetOperandCls
      {[1 := [SingleCellOperand 1 1 None None]]}
      [SingleCellOperand 9 9 None None] 0
    = Ok m'
    /\ ((forall j,
           is_Some (({[1 := [SingleCellOperand 1 1 None None]]}
                       : gmap Z (list pyobj)) !! j) -> j <= 0) ->
        SetOperand.get_iter m'
        = SetOperand.get_iter {[1 := [SingleCellOperand 1 1 None None]]}
            ++ [SingleCellOperand 9 9 None None])
    /\ ((forall j,
           is_Some (({[1 := [SingleCellOperand 1 1 None None]]}
                       : gmap Z (list pyobj)) !! j) -> 0 < j) ->
        SetOperand.get_iter m'
        = [SingleCellOperand 9 9 None None]
            ++ SetOperand.get_iter {[1 := [SingleCellOperand 1 1 None None]]})
    /\ forall item,
         [SingleCellOperand 9 9 None None] = [item] ->
         SetOperand.add_cell CellSetOperandCls
           {[1 := [SingleCellOperand 1 1 None None]]} item 0
         = Ok m'.
Proof.
  apply (SetOperand_add_many_order CellSetOperandCls
           {[1 := [SingleCellOperand 1 1 None None]]}
           [SingleCellOperand 9 9 None None] 0).
  reflexivity.
Defined.

(** ** Cell ranges, beyond the order *)

Section RangesMore.

Lemma elem_of_py_range lo hi x : x ∈ py_range lo hi <-> lo <= x < hi.
Proof.
  unfold py_range. rewrite list_elem_of_fmap. split.
  - intros (k & -> & Hk). apply elem_of_seq in Hk. lia.
  - intros H. exists (Z.to_nat (x - lo)). split; [lia|].
    apply elem_of_seq. lia.
Qed.

Lemma NoDup_py_range lo hi : NoDup (py_range lo hi).
Proof.
  unfold py_range. apply NoDup_fmap_2; [|apply NoDup_seq].
  intros a b H. lia.
Qed.

Lemma elem_of_row_major r1 r2 c1 c2 r c :
  (r, c) ∈ row_major r1 r2 c1 c2 <-> r1 <= r <= r2 /\ c1 <= c <= c2.
Proof.
  unfold row_major. rewrite list_elem_of_bind. split.
  - intros (r' & Hc & Hr). apply elem_of_py_range in Hr.
    apply list_elem_of_fmap in Hc as (c' & [= -> ->] & Hc).
    apply elem_of_py_range in Hc. lia.
  - intros [Hr Hc]. exists r. split.
    + apply list_elem_of_fmap. exists c. split; [done|].
      apply elem_of_py_range. lia.
    + apply elem_of_py_range. lia.
Qed.

Lemma NoDup_row_major r1 r2 c1 c2 : NoDup (row_major r1 r2 c1 c2).
Proof.
  unfold row_major. apply NoDup_bind.
  - intros x1 x2 [r c] _ _ H1 H2.
    apply list_elem_of_fmap in H1 as (? & [= -> _] & _).
    apply list_elem_of_fmap in H2 as (? & [= -> _] & _). done.
  - intros r _. apply NoDup_fmap_2; [|apply NoDup_py_range].
    intros a b [= ->]. done.
  - apply NoDup_py_range.
Qed.

Lemma row_major_empty r1 r2 c1 c2 :
  r2 < r1 \/ c2 < c1 -> row_major r1 r2 c1 c2 = [].
Proof.
  intros H. apply length_zero_iff_nil. rewrite length_row_major.
  destruct H; [replace (Z.to_nat (r2 + 1 - r1)) with 0%nat by lia
              |replace (Z.to_nat (c2 + 1 - c1)) with 0%nat by lia]; lia.
Qed.

End RangesMore.

(** X15.  A range whose bounds are in the wrong order yields nothing:
    when the last row is above the first, or the last column is left of
    the first, iterating the range ends at once, without a cell and
    without an error. *)
Theorem CellRange_reversed_is_empty
    row1 column1 row2 column2 ws_name source c1 c2 r1 r2 :
  bound_of source min_column ws_name column1 = Ok c1 ->
  bound_of source max_column ws_name column2 = Ok c2 ->
  bound_of source min_row ws_name row1 = Ok r1 ->
  bound_of source max_row ws_name row2 = Ok r2 ->
  r2 < r1 \/ c2 < c1 ->
  CellRangeOperand_get_iter row1 column1 row2 column2 ws_name source = Ok [].
Proof.
  intros Hc1 Hc2 Hr1 Hr2 H.
  rewrite (get_iter_row_major _ _ _ _ _ _ c1 c2 r1 r2) by done.
  by rewrite row_major_empty.
Qed.

Lemma CellRange_reversed_is_empty_witness :
  CellRangeOperand_get_iter (Some 5) (Some 1) (Some 1) (Some 1) None None
  = Ok [].
Proof.
  apply (CellRange_reversed_is_empty (Some 5) (Some 1) (Some 1) (Some 1)
           None None 1 1 5 1); try reflexivity.
  left. lia.
Defined.

(** X16.  Iterating a range yields each cell of the rectangle exactly
    once and nothing else: the objects yielded are pairwise distinct,
    and an object is yielded exactly when it is the [SingleCellOperand]
    of a row between the first and the last row and a column between the
    first and the last column, with the worksheet name and the source of
    the range. *)
Theorem CellRange_yields_each_cell_once
    row1 column1 row2 column2 ws_name source c1 c2 r1 r2 :
  bound_of source min_column ws_name column1 = Ok c1 ->
  bound_of source max_column ws_name column2 = Ok c2 ->
  bound_of source min_row ws_name row1 = Ok r1 ->
  bound_of source max_row ws_name row2 = Ok r2 ->
  exists cells,
    CellRangeOperand_get_iter row1 column1 row2 column2 ws_name source
    = Ok cells
    /\ NoDup cells
    /\ forall o,
         o ∈ cells
         <-> exists r c,
               o = SingleCellOperand r c ws_name source
               /\ r1 <= r <= r2 /\ c1 <= c <= c2.
Proof.
  intros Hc1 Hc2 Hr1 Hr2. eexists. split; [by apply get_iter_row_major|].
  split.
  - apply NoDup_fmap_2; [|apply NoDup_row_major].
    intros [ra ca] [rb cb] [= -> ->]. done.
  - intros o. rewrite list_elem_of_fmap. split.
    + intros ([r c] & -> & Hin). apply elem_of_row_major in Hin.
      by exists r, c.
    + intros (r & c & -> & Hr & Hc). exists (r, c). split; [done|].
      by apply elem_of_row_major.
Qed.

Lemma CellRange_yields_each_cell_once_witness :
  exists cells,
    CellRangeOperand_get_iter (Some 2) (Some 2) (Some 3) None None
      (Some small_sheet)
    = Ok cells
    /\ NoDup cells
    /\ forall o,
         o ∈ cells
         <-> exists r c,
               o = SingleCellOperand r c None (Some small_sheet)
               /\ 2 <= r <= 3 /\ 2 <= c <= 4.
Proof.
  apply (CellRange_yields_each_cell_once (Some 2) (Some 2) (Some 3) None None
           (Some small_sheet) 2 4 2 3); reflexivity.
Defined.

(** ** The functions of the table, beyond the running total *)

Section FunctionsMore.

Lemma py_add_float_left f b v :
  py_add (PFloat f) b = Ok v -> exists g, v = PFloat g.
Proof.
  unfold py_add. cbn [as_number].
  destruct (as_number b) as [[y|y]|] eqn:E.
  - cbn [to_float mbind outcome_bind].
    destruct (float_of_int y); [|done]. intros [= <-]. by eexists.
  - cbn [to_float mbind outcome_bind]. intros [= <-]. by eexists.
  - by destruct b.
Qed.

Lemma sum_rows_float (rows : list pyval) : forall acc v,
  (forall w, acc = Ok w -> exists g, w = PFloat g) ->
  foldl (fun acc row =>
           result ← acc;
           items ← py_iter row;
           s ← py_sum (filter (fun i => py_truthy i) items);
           py_add result s)
        acc rows = Ok v ->
  exists g, v = PFloat g.
Proof.
  induction rows as [|row rows IH]; intros acc v Hacc H; simpl in H.
  - by apply Hacc.
  - refine (IH _ v _ H).
    intros w Hw. destruct acc as [a|e]; [|done].
    destruct (Hacc a eq_refl) as [g ->].
    cbn [mbind outcome_bind] in Hw.
    destruct (py_iter row) as [items|]; [|done].
    cbn [mbind outcome_bind] in Hw.
    destruct (py_sum _) as [s|]; [|done].
    by apply (py_add_float_left g s).
Qed.

Lemma sum_func_arg_float f arg v :
  sum_func_arg (PFloat f) arg = Ok v -> exists g, v = PFloat g.
Proof.
  destruct arg as [| | | | |l]; try apply py_add_float_left.
  cbn [sum_func_arg]. destruct l as [|x l]; [done|].
  assert (Hflat :
    (s ← py_sum (filter (fun i => py_truthy i) (x :: l)); py_add (PFloat f) s)
    = Ok v -> exists g, v = PFloat g).
  { destruct (py_sum _) as [s|]; [|done]. apply py_add_float_left. }
  destruct x; try exact Hflat.
  apply sum_rows_float. intros w [= <-]. by eexists.
Qed.

Lemma sum_fold_float (args : list pyval) : forall acc v,
  (forall w, acc = Ok w -> exists g, w = PFloat g) ->
  foldl (fun acc arg => result ← acc; sum_func_arg result arg) acc args = Ok v ->
  exists g, v = PFloat g.
Proof.
  induction args as [|arg args IH]; intros acc v Hacc H; simpl in H.
  - by apply Hacc.
  - refine (IH _ v _ H).
    intros w Hw. destruct acc as [a|e]; [|done].
    destruct (Hacc a eq_refl) as [g ->].
    by apply (sum_func_arg_float g arg).
Qed.

Lemma sum_fold_raise (args : list pyval) e :
  foldl (fun acc arg => result ← acc; sum_func_arg result arg) (Raise e) args
  = Raise e.
Proof. induction args as [|arg args IH]; [done|]. exact IH. Qed.

Lemma sum_func_float args v : sum_func args = Ok v -> exists g, v = PFloat g.
Proof.
  apply sum_fold_float. intros w [= <-]. by eexists.
Qed.

(** The builtin sum of integers is their exact sum. *)
Lemma py_sum_ints (zs : list Z) : forall acc,
  foldl (fun acc i => total ← acc; py_add total i) (Ok (PInt acc))
        (filter (fun i => py_truthy i) (PInt <$> zs))
  = Ok (PInt (acc + foldr Z.add 0 zs)).
Proof.
  induction zs as [|z zs IH]; intros acc.
  - simpl. do 2 apply f_equal. lia.
  - rewrite fmap_cons. cbn [foldr].
    destruct (decide (z = 0)) as [->|Hz].
    + rewrite filter_cons_False by (simpl; tauto).
      rewrite IH. do 2 apply f_equal. lia.
    + rewrite filter_cons_True
        by (simpl; apply Is_true_true; apply negb_true_iff; lia).
      cbn [foldl mbind outcome_bind py_add as_number].
      rewrite IH. do 2 apply f_equal. lia.
Qed.

End FunctionsMore.

(** X17.  Whatever its arguments, [sum_func] returns a float when it
    returns: never an [int], a string or a list, also when every
    argument is an integer or when there is no argument at all. *)
Theorem sum_func_returns_float args v :
  sum_func args = Ok v -> exists f, v = PFloat f.
Proof.
  unfold sum_func. apply sum_fold_float.
  intros w Hw. injection Hw as <-. by exists 0%float.
Qed.

Lemma sum_func_returns_float_witness : exists f, PFloat 6%float = PFloat f.
Proof.
  apply (sum_func_returns_float [PInt 1; PList [PInt 2; PInt 3]]).
  vm_compute. reflexivity.
Defined.

(** X18.  A text among the arguments of [sum_func] is no number for it:
    with a non-empty string as an argument the call never returns a
    value, and when the arguments before the string can be summed the
    call raises [TypeError] (which [calc] turns into a
    [ValueErrorOperand]), whatever comes after the string.  An empty
    string is skipped. *)
Theorem sum_func_rejects_text args1 s args2 :
  s <> EmptyString ->
  (forall v, sum_func (args1 ++ PStr s :: args2) <> Ok v)
  /\ (forall v, sum_func args1 = Ok v ->
        sum_func (args1 ++ PStr s :: args2) = Raise TypeError)
  /\ sum_func (args1 ++ PStr EmptyString :: args2) = sum_func (args1 ++ args2).
Proof.
  intros Hs.
  assert (Hstep : sum_func (args1 ++ PStr s :: args2)
                  = foldl (fun acc arg => result ← acc; sum_func_arg result arg)
                      (result ← sum_func args1; sum_func_arg result (PStr s))
                      (filter (fun a => py_truthy a) args2)).
  { unfold sum_func. rewrite filter_app, foldl_app.
    rewrite filter_cons_True; [done|].
    simpl. apply Is_true_true, negb_true_iff.
    destruct s; [done|reflexivity]. }
  assert (Hraise : forall v, sum_func args1 = Ok v ->
            sum_func (args1 ++ PStr s :: args2) = Raise TypeError).
  { intros v Hv. rewrite Hstep, Hv.
    destruct (sum_func_float _ _ Hv) as [g ->].
    cbn [mbind outcome_bind]. apply sum_fold_raise. }
  split; [|split; [exact Hraise|]].
  - intros v. destruct (sum_func args1) as [w|e] eqn:E.
    + by rewrite (Hraise w).
    + rewrite Hstep. cbn [mbind outcome_bind].
      by rewrite sum_fold_raise.
  - by apply sum_func_skip.
Qed.

Lemma sum_func_rejects_text_witness :
  (forall v, sum_func ([PInt 1] ++ PStr "n/a" :: [PInt 2]) <> Ok v)
  /\ (forall v, sum_func [PInt 1] = Ok v ->
        sum_func ([PInt 1] ++ PStr "n/a" :: [PInt 2]) = Raise TypeError)
  /\ sum_func ([PInt 1] ++ PStr EmptyString :: [PInt 2])
     = sum_func ([PInt 1] ++ [PInt 2]).
Proof.
  apply (sum_func_rejects_text [PInt 1] "n/a" [PInt 2]). discriminate.
Defined.

(** X19.  The integers of one list argument are summed exactly, as
    integers of any size, and the sum is made a float once, at the end:
    [sum_func] of a non-empty list of integers is 0.0 plus the float of
    their exact sum.  So two huge integers that cancel sum to 0.0 in one
    list, while as two arguments the first one alone overflows. *)
Theorem sum_func_integer_list_exact :
  (forall z zs,
     sum_func [PList (PInt <$> (z :: zs))]
     = f ← float_of_int (foldr Z.add 0 (z :: zs));
       Ok (PFloat (PrimFloat.add 0%float f)))
  /\ sum_func [PList [PInt (2 ^ 1024); PInt (- 2 ^ 1024)]] = Ok (PFloat 0%float)
  /\ sum_func [PInt (2 ^ 1024); PInt (- 2 ^ 1024)] = Raise OverflowError.
Proof.
  split; [|split; vm_compute; reflexivity].
  intros z zs. unfold sum_func.
  rewrite filter_cons_True by (rewrite fmap_cons; simpl; tauto).
  rewrite filter_nil. cbn [foldl mbind outcome_bind].
  rewrite fmap_cons. cbn [sum_func_arg]. rewrite <- fmap_cons.
  unfold py_sum. rewrite py_sum_ints. cbn [mbind outcome_bind].
  rewrite Z.add_0_l. reflexivity.
Qed.

(** X20.  [divide_func] never returns an integer: a quotient is a float
    (9 / 3 is 3.0).  An operand that is no number (a blank [None], a
    text, a list) makes it raise [TypeError].  A divisor that is zero
    (0, False, 0.0 or -0.0) makes it raise [ZeroDivisionError] whenever
    the operands are two integers or the dividend has a float value. *)
Theorem divide_func_outcomes a b :
  (forall v, divide_func a b = Ok v -> exists f, v = PFloat f)
  /\ (as_number a = None \/ as_number b = None ->
      divide_func a b = Raise TypeError)
  /\ (forall x y,
        as_number a = Some x -> as_number b = Some y -> is_zero y = true ->
        match x, y with
        | NInt _, NInt _ => True
        | _, _ => exists fx, to_float x = Ok fx
        end ->
        divide_func a b = Raise ZeroDivisionError).
Proof.
  unfold divide_func, py_truediv. split; [|split].
  - intros v. destruct (as_number a) as [[x|x]|], (as_number b) as [[y|y]|];
      try done.
    + destruct (y =? 0); [done|].
      destruct (SF_to_float _); [|done]. intros [= <-]. by eexists.
    + cbn [to_float mbind outcome_bind]. destruct (float_of_int x); [|done].
      cbn [mbind outcome_bind]. destruct (PrimFloat.eqb y 0); [done|].
      intros [= <-]. by eexists.
    + cbn [to_float mbind outcome_bind]. destruct (float_of_int y); [|done].
      cbn [mbind outcome_bind]. destruct (PrimFloat.eqb _ 0); [done|].
      intros [= <-]. by eexists.
    + cbn [to_float mbind outcome_bind]. destruct (PrimFloat.eqb y 0); [done|].
      intros [= <-]. by eexists.
  - intros [-> | Hb]; [done|]. rewrite Hb. by destruct (as_number a) as [[?|?]|].
  - intros x y -> -> Hy Hx. destruct x as [x|x], y as [y|y]; simpl in Hy.
    + by rewrite Hy.
    + destruct Hx as [fx ->]. cbn [to_float mbind outcome_bind]. by rewrite Hy.
    + apply Z.eqb_eq in Hy as ->. reflexivity.
    + cbn [to_float mbind outcome_bind]. by rewrite Hy.
Qed.

Lemma divide_func_outcomes_witness :
  divide_func PNone (PInt 3) = Raise TypeError
  /\ divide_func (PFloat 4%float) (PBool false) = Raise ZeroDivisionError.
Proof.
  split.
  - apply (proj1 (proj2 (divide_func_outcomes PNone (PInt 3)))). by left.
  - apply (proj2 (proj2 (divide_func_outcomes (PFloat 4%float) (PBool false)))
             (NFloat 4%float) (NInt 0)); try reflexivity.
    by exists 4%float.
Defined.

(** ** The engine, beyond the claims *)

Section EngineMore.
Variable token_eval : pyobj -> list pyobj -> outcome pyobj.
Variables (self : RPN) (ws_name : option string).

Lemma list_pop_Ok {X} (l : list X) x r :
  list_pop l = Ok (x, r) <-> l = r ++ [x].
Proof.
  split.
  - unfold list_pop. destruct (rev l) as [|y k] eqn:E; [done|].
    intros [= -> <-]. apply (f_equal (@rev X)) in E.
    rewrite rev_involutive in E. by rewrite E.
  - intros ->. apply list_pop_snoc.
Qed.

Lemma pop_args_Ok n : forall result args rest,
  pop_args n result = Ok (args, rest) <->
  result = rest ++ rev args /\ length args = n.
Proof.
  induction n as [|n IH]; intros result args rest.
  - simpl. split.
    + intros [= <- <-]. by rewrite app_nil_r.
    + intros [-> Hlen]. destruct args; [|done]. simpl. by rewrite app_nil_r.
  - cbn [pop_args]. split.
    + destruct (list_pop result) as [[x r]|] eqn:E; [|done].
      apply list_pop_Ok in E as ->. cbn [mbind outcome_bind].
      destruct (pop_args n r) as [[args' r']|] eqn:E'; [|done].
      apply IH in E' as [-> Hlen]. intros [= <- <-].
      simpl. rewrite <- app_assoc. split; [done|]. by rewrite Hlen.
    + intros [-> Hlen]. destruct args as [|x args]; [done|].
      simpl. rewrite app_assoc, list_pop_snoc. cbn [mbind outcome_bind].
      assert (E : pop_args n (rest ++ rev args) = Ok (args, rest)).
      { apply IH. split; [done|]. simpl in Hlen. lia. }
      by rewrite E.
Qed.

Lemma pop_args_frame n (frame result args rest : list pyobj) :
  pop_args n result = Ok (args, rest) ->
  pop_args n (frame ++ result) = Ok (args, frame ++ rest).
Proof.
  intros H. apply pop_args_Ok in H as [-> Hlen].
  apply pop_args_Ok. split; [by rewrite app_assoc|done].
Qed.

Lemma pop_args_raises n (result : list pyobj) e :
  pop_args n result = Raise e -> e = IndexError.
Proof.
  revert result. induction n as [|n IH]; intros result; [done|].
  cbn [pop_args]. unfold list_pop at 1.
  destruct (rev result) as [|x r]; [by intros [= <-]|].
  cbn [mbind outcome_bind].
  destruct (pop_args n (rev r)) as [[args rest]|e'] eqn:E; [done|].
  intros [= <-]. by apply (IH (rev r)).
Qed.

Lemma calc_token_frame (frame result result' : list pyobj) token :
  calc_token token_eval self ws_name result token = Ok result' ->
  calc_token token_eval self ws_name (frame ++ result) token
  = Ok (frame ++ result').
Proof.
  unfold calc_token. destruct (is_OperandLikeObject token).
  - intros [= <-]. by rewrite app_assoc.
  - destruct token; try (intros [= <-]; done).
    destruct (pop_args _ result) as [[args rest]|e] eqn:E.
    + rewrite (pop_args_frame _ frame _ _ _ E).
      destruct (eval_token _ _ _) as [v|]; [|done].
      intros [= <-]. by rewrite app_assoc.
    + apply pop_args_raises in E as ->. done.
Qed.

Lemma calc_token_height (result result' : list pyobj) token :
  calc_token token_eval self ws_name result token = Ok result' ->
  Z.of_nat (length result')
  = Z.of_nat (length result) + stack_effect token.
Proof.
  unfold calc_token, stack_effect. destruct (is_OperandLikeObject token).
  - intros [= <-]. rewrite length_app. simpl. lia.
  - destruct token; try (intros [= <-]; lia).
    destruct (pop_args _ result) as [[args rest]|e] eqn:E.
    + apply pop_args_Ok in E as [-> Hlen].
      destruct (eval_token _ _ _) as [v|]; [|done].
      intros [= <-]. rewrite !length_app, length_rev, Hlen. simpl. lia.
    + apply pop_args_raises in E as ->. done.
Qed.

End EngineMore.

(** X21.  [handle_result] never raises on a stack that is not empty: it
    returns the stack as a list, or one value, which is a value of the
    stack, a set whose one row is the stack, or a new
    [ValueErrorOperand].  On an empty stack it raises [IndexError]. *)
Theorem handle_result_total_on_nonempty self result ws_name source :
  (result <> [] ->
   exists v,
     handle_result self result ws_name source = Ok v
     /\ (v = ResultList result
         \/ exists o, v = Value o
              /\ (o ∈ result
                  \/ o = CellSetOperand ws_name source {[1 := result]}
                  \/ o = SimpleSetOperand ws_name source {[1 := result]}
                  \/ o = Error (new_error ValueErrorOperandCls))))
  /\ handle_result self [] ws_name source = Raise IndexError.
Proof.
  split; [|reflexivity].
  intros Hne. destruct result as [|first rest]; [done|].
  unfold handle_result.
  destruct (Nat.eqb (length (first :: rest)) 1).
  { eexists. split; [reflexivity|]. right. eexists. split; [done|].
    left. by left. }
  destruct (filter (fun i => is_ErrorOperand i) (first :: rest))
    as [|item items] eqn:E.
  - change (py_getitem (first :: rest) 0) with (Ok first).
    cbn [mbind outcome_bind].
    destruct (is_SingleCellOperand first); [|destruct (is_SimpleOperand first)].
    + rewrite build_set_new. destruct (forallb _ _); eexists;
        (split; [reflexivity|]); right; eexists; (split; [done|]); auto.
    + rewrite build_set_new. destruct (forallb _ _); eexists;
        (split; [reflexivity|]); right; eexists; (split; [done|]); auto.
    + eexists. split; [reflexivity|]. by left.
  - eexists. split; [reflexivity|]. right. eexists. split; [done|]. left.
    assert (Hin : item ∈ filter (fun i => is_ErrorOperand i) (first :: rest))
      by (rewrite E; by left).
    by apply list_elem_of_filter in Hin as [_ Hin].
Qed.

Lemma handle_result_total_on_nonempty_witness :
  exists v,
    handle_result four_by_zero [Plain (PInt 1); Plain (PInt 2)] None None
    = Ok v
    /\ (v = ResultList [Plain (PInt 1); Plain (PInt 2)]
        \/ exists o, v = Value o
             /\ (o ∈ [Plain (PInt 1); Plain (PInt 2)]
                 \/ o = CellSetOperand None None
                          {[1 := [Plain (PInt 1); Plain (PInt 2)]]}
                 \/ o = SimpleSetOperand None None
                          {[1 := [Plain (PInt 1); Plain (PInt 2)]]}
                 \/ o = Error (new_error ValueErrorOperandCls))).
Proof.
  apply (proj1 (handle_result_total_on_nonempty four_by_zero
                  [Plain (PInt 1); Plain (PInt 2)] None None)).
  discriminate.
Defined.

(** X22.  A postfix sequence that leaves nothing on the stack makes
    [calc] raise [IndexError]: so does the empty sequence, and so does
    every sequence that holds neither an operand nor an operation. *)
Theorem calc_without_tokens_fails token_eval self ws_name source :
  forallb (fun t => negb (is_token t)) (ArrayOps.iter (rpn_array self)) = true ->
  calc token_eval self ws_name source = Raise IndexError.
Proof.
  intros H. unfold calc.
  rewrite <- calc_loop_filter.
  assert (E : List.filter is_token (ArrayOps.iter (rpn_array self)) = []).
  { induction (ArrayOps.iter (rpn_array self)) as [|t l IH]; [done|].
    simpl in H. apply andb_prop in H as [Ht Hl]. simpl.
    apply negb_true_iff in Ht. rewrite Ht. by apply IH. }
  rewrite E. reflexivity.
Qed.

Lemma calc_without_tokens_fails_witness :
  calc (Operation_eval EXCEL_FUNCTIONS literal_value)
    (mkRPN "()" (mkArray [Plain (PStr "("); Plain (PStr ")")] (-1)))
    None None
  = Raise IndexError.
Proof.
  apply (calc_without_tokens_fails
           (Operation_eval EXCEL_FUNCTIONS literal_value)
           (mkRPN "()" (mkArray [Plain (PStr "("); Plain (PStr ")")] (-1)))).
  reflexivity.
Defined.

(** X23.  [calc] swallows no other fault: when the function of an
    operation that finds its arguments raises an exception that is
    neither an [ErrorOperand], a [TypeError], a [ValueError] nor a
    [ZeroDivisionError] (an [OverflowError], say), [calc] raises that
    exception, and returns no error operand. *)
Theorem calc_propagates_other_faults
    token_eval self ws_name source before f_name operands_count after
    rest args e :
  ArrayOps.iter (rpn_array self)
    = before ++ Operation f_name operands_count :: after ->
  calc_loop token_eval self ws_name before [] = Ok (rest ++ args) ->
  length args = Z.to_nat operands_count ->
  token_eval (Operation f_name operands_count) args = Raise e ->
  passes_through e = true ->
  calc token_eval self ws_name source = Raise e.
Proof.
  intros Htokens Hbefore Hlen Heval He. unfold calc.
  rewrite Htokens, calc_loop_app, Hbefore.
  cbn [mbind outcome_bind calc_loop].
  rewrite calc_token_operation by exact Hlen.
  unfold eval_token. rewrite Heval.
  by destruct e.
Qed.

Lemma calc_propagates_other_faults_witness :
  calc (Operation_eval EXCEL_FUNCTIONS literal_value)
    (mkRPN "1e400/1"
       (mkArray [SimpleOperand (PInt (10 ^ 400)) None None;
                 SimpleOperand (PInt 1) None None;
                 Operation "/" 2] (-1)))
    None None
  = Raise OverflowError.
Proof.
  apply (calc_propagates_other_faults
           (Operation_eval EXCEL_FUNCTIONS literal_value)
           (mkRPN "1e400/1"
              (mkArray [SimpleOperand (PInt (10 ^ 400)) None None;
                        SimpleOperand (PInt 1) None None;
                        Operation "/" 2] (-1)))
           None None
           [SimpleOperand (PInt (10 ^ 400)) None None;
            SimpleOperand (PInt 1) None None]
           "/"%string 2 [] []
           [SimpleOperand (PInt (10 ^ 400)) None None;
            SimpleOperand (PInt 1) None None]
           OverflowError); reflexivity.
Defined.

(** X24.  The height of the stack follows the tokens: when the loop of
    [calc] runs through a sequence, the stack ends higher by one for
    every operand and by one minus its arity for every operation.  A
    sequence that runs through from the empty stack with effects that
    add up to 1 makes [calc] return the one value left, as it is. *)
Theorem calc_loop_stack_height token_eval self ws_name tokens :
  (forall result result',
     calc_loop token_eval self ws_name tokens result = Ok result' ->
     Z.of_nat (length result')
     = Z.of_nat (length result) + foldr Z.add 0 (stack_effect <$> tokens))
  /\ (forall source result',
        ArrayOps.iter (rpn_array self) = tokens ->
        calc_loop token_eval self ws_name tokens [] = Ok result' ->
        foldr Z.add 0 (stack_effect <$> tokens) = 1 ->
        exists v, result' = [v]
                  /\ calc token_eval self ws_name source = Ok (Value v)).
Proof.
  assert (H : forall result result',
     calc_loop token_eval self ws_name tokens result = Ok result' ->
     Z.of_nat (length result')
     = Z.of_nat (length result) + foldr Z.add 0 (stack_effect <$> tokens)).
  { induction tokens as [|t tokens IH]; intros result result' Hrun.
    - simpl in *. injection Hrun as <-. lia.
    - simpl in Hrun.
      destruct (calc_token token_eval self ws_name result t) as [r|] eqn:E;
        [|done].
      apply calc_token_height in E. apply IH in Hrun.
      rewrite fmap_cons. cbn [foldr]. lia. }
  split; [exact H|].
  intros source result' Htokens Hrun Hsum.
  apply H in Hrun as Hlen. rewrite Hsum in Hlen. simpl in Hlen.
  destruct result' as [|v [|w rest]]; simpl in Hlen; try lia.
  exists v. split; [done|].
  unfold calc. rewrite Htokens, Hrun. reflexivity.
Qed.

Lemma calc_loop_stack_height_witness :
  Z.of_nat (length [SimpleOperand (PInt 7) None None; Plain (PFloat 3%float)])
  = Z.of_nat (length [SimpleOperand (PInt 7) None None])
    + foldr Z.add 0
        (stack_effect <$> [SimpleOperand (PInt 9) None None;
                           SimpleOperand (PInt 3) None None;
                           Operation "/" 2]).
Proof.
  apply (proj1 (calc_loop_stack_height
                  (Operation_eval EXCEL_FUNCTIONS literal_value)
                  four_by_zero None
                  [SimpleOperand (PInt 9) None None;
                   SimpleOperand (PInt 3) None None;
                   Operation "/" 2])
           [SimpleOperand (PInt 7) None None]
           [SimpleOperand (PInt 7) None None; Plain (PFloat 3%float)]).
  vm_compute. reflexivity.
Defined.

(** X25.  The loop of [calc] never looks below the values it works on:
    a sequence that runs through on a stack runs through in the same way
    on that stack with any values under it, and leaves those values
    under its result, untouched and in their order. *)
Theorem calc_loop_frame token_eval self ws_name tokens :
  forall frame result result',
    calc_loop token_eval self ws_name tokens result = Ok result' ->
    calc_loop token_eval self ws_name tokens (frame ++ result)
    = Ok (frame ++ result').
Proof.
  induction tokens as [|t tokens IH]; intros frame result result' Hrun.
  - simpl in *. by injection Hrun as <-.
  - simpl in *.
    destruct (calc_token token_eval self ws_name result t) as [r|] eqn:E;
      [|done].
    rewrite (calc_token_frame _ _ _ frame _ _ _ E).
    cbn [mbind outcome_bind]. by apply IH.
Qed.

Lemma calc_loop_frame_witness :
  calc_loop (Operation_eval EXCEL_FUNCTIONS literal_value) four_by_zero None
    [SimpleOperand (PInt 9) None None; SimpleOperand (PInt 3) None None;
     Operation "/" 2]
    ([SingleCellOperand 1 1 None None] ++ [])
  = Ok ([SingleCellOperand 1 1 None None] ++ [Plain (PFloat 3%float)]).
Proof.
  apply (calc_loop_frame (Operation_eval EXCEL_FUNCTIONS literal_value)
           four_by_zero None
           [SimpleOperand (PInt 9) None None; SimpleOperand (PInt 3) None None;
            Operation "/" 2]
           [SingleCellOperand 1 1 None None] []).
  vm_compute. reflexivity.
Defined.

(** X26.  An [ErrorOperand] that the function of an operation raises and
    one that it returns are the same to [calc]: either way the error is
    pushed in place of the arguments, with its class, source and name,
    with the formula of the sequence in place of any formula it had, and
    with its own worksheet name when it has one, the current one
    otherwise. *)
Theorem calc_error_raised_or_returned
    token_eval self ws_name f_name operands_count rest args err :
  length args = Z.to_nat operands_count ->
  token_eval (Operation f_name operands_count) args
    = Raise (RaisedOperand err)
  \/ token_eval (Operation f_name operands_count) args = Ok (Error err) ->
  calc_token token_eval self ws_name (rest ++ args)
    (Operation f_name operands_count)
  = Ok (rest ++ [Error {| err_class := err_class err;
                          err_formula := Some (formula self);
                          err_ws_name := match err_ws_name err with
                                         | Some w => Some w
                                         | None => ws_name
                                         end;
                          err_source := err_source err;
                          err_name := err_name err |}]).
Proof.
  intros Hlen H. rewrite calc_token_operation by exact Hlen.
  unfold eval_token. destruct H as [-> | ->]; cbn [mbind outcome_bind stamp];
    by destruct (err_ws_name err).
Qed.

Lemma calc_error_raised_or_returned_witness :
  calc_token (Operation_eval EXCEL_FUNCTIONS literal_value) four_by_zero
    (Some "Sheet2"%string)
    ([] ++ [Error {| err_class := WorksheetNotExistCls;
                     err_formula := None;
                     err_ws_name := Some "Sheet1"%string;
                     err_source := None; err_name := None |};
            SimpleOperand (PInt 1) None None])
    (Operation "+" 2)
  = Ok ([] ++ [Error {| err_class := WorksheetNotExistCls;
                        err_formula := Some (formula four_by_zero);
                        err_ws_name := Some "Sheet1"%string;
                        err_source := None; err_name := None |}]).
Proof.
  apply (calc_error_raised_or_returned
           (Operation_eval EXCEL_FUNCTIONS literal_value) four_by_zero
           (Some "Sheet2"%string) "+"%string 2 []
           [Error {| err_class := WorksheetNotExistCls;
                     err_formula := None;
                     err_ws_name := Some "Sheet1"%string;
                     err_source := None; err_name := None |};
            SimpleOperand (PInt 1) None None]
           {| err_class := WorksheetNotExistCls;
              err_formula := None;
              err_ws_name := Some "Sheet1"%string;
              err_source := None; err_name := None |}).
  - reflexivity.
  - left. reflexivity.
Defined.

(** ** Addresses *)

Section Addresses.

(** What the loop of [col_index_to_str] returns, when it returns. *)
Lemma loop_result fuel : forall i chars out,
  col_index_to_str_loop fuel i chars = Some (Ok out) ->
  exists ds, out = chars ++ ds /\ forallb is_upper ds = true
             /\ weighted (rev ds) = i.
Proof.
  induction fuel as [|fuel IH]; intros i chars out H; [done|].
  destruct (decide (i < 0)) as [Hneg|Hpos].
  { by rewrite loop_negative in H. }
  destruct (decide (i = 0)) as [->|Hnz].
  { simpl in H. injection H as <-. exists []. by rewrite app_nil_r. }
  pose proof (Z.div_mod i 26 ltac:(lia)) as Hdm.
  pose proof (Z.mod_pos_bound i 26 ltac:(lia)) as Hb.
  set (r := if i mod 26 =? 0 then 26 else i mod 26).
  set (q := if i mod 26 =? 0 then i / 26 - 1 else i / 26).
  assert (Hqr : i = 26 * q + r /\ 1 <= r <= 26 /\ 0 <= q).
  { subst q r. destruct (i mod 26 =? 0) eqn:E; lia. }
  destruct Hqr as (Hiq & Hr & Hq).
  destruct (getitem_digit r Hr) as (c & Hc & Hup & Hv).
  rewrite (loop_step fuel i chars q r c Hiq Hr Hq Hc) in H.
  destruct (IH _ _ _ H) as (ds & -> & Hds & Hw).
  exists (c :: ds). split; [by rewrite <- app_assoc|]. split.
  - simpl. by rewrite Hup, Hds.
  - simpl. rewrite weighted_snoc, Hw. lia.
Qed.

Lemma col_index_to_str_result fuel i col :
  col_index_to_str fuel i = Some (Ok col) ->
  is_column_name col = true /\ weighted (list_ascii_of_string col) = i.
Proof.
  unfold col_index_to_str.
  destruct (col_index_to_str_loop fuel i []) as [[out|]|] eqn:E; try done.
  intros [= <-]. destruct (loop_result _ _ _ _ E) as (ds & -> & Hup & Hw).
  simpl. unfold is_column_name.
  rewrite list_ascii_of_string_of_list_ascii. split; [|exact Hw].
  rewrite forallb_forall in Hup |- *. intros c Hc. apply Hup. by apply in_rev.
Qed.

(** The numeral of an integer: digits after an optional minus sign. *)
Lemma uint_numeral d :
  forallb is_numeral_char (list_ascii_of_string (NilEmpty.string_of_uint d))
  = true.
Proof. induction d; simpl; auto. Qed.

Lemma format_d_numeral z :
  forallb is_numeral_char (list_ascii_of_string (format_d z)) = true
  /\ format_d z <> EmptyString.
Proof.
  unfold format_d.
  assert (Hu : forall d,
            forallb is_numeral_char
              (list_ascii_of_string (NilZero.string_of_uint d)) = true
            /\ NilZero.string_of_uint d <> EmptyString).
  { intros d. split.
    - destruct d; try apply (uint_numeral (_ d)); reflexivity.
    - destruct d; discriminate. }
  destruct (Z.to_int z) as [d|d]; simpl.
  - apply Hu.
  - split; [apply Hu|discriminate].
Qed.

Lemma format_d_inj z1 z2 : format_d z1 = format_d z2 -> z1 = z2.
Proof.
  unfold format_d. intros H.
  assert (Hn : forall z, Z.to_int z <> Decimal.Pos Decimal.Nil
                         /\ Z.to_int z <> Decimal.Neg Decimal.Nil).
  { intros [|p|p]; simpl; split; try discriminate;
      intros [= E]; by apply DecimalPos.Unsigned.to_uint_nonnil in E. }
  apply to_int_inj.
  destruct (Hn z1) as [A1 B1], (Hn z2) as [A2 B2].
  pose proof (NilZero.isi _ A1 B1) as I1.
  pose proof (NilZero.isi _ A2 B2) as I2.
  rewrite H in I1. rewrite I1 in I2. by injection I2.
Qed.

(** Splitting a text at its last quote, and a name from a numeral. *)
Lemma split_at_last {X} (q : X) (l1 : list X) : forall l2 t1 t2,
  l1 ++ q :: t1 = l2 ++ q :: t2 -> ~ In q t1 -> ~ In q t2 ->
  l1 = l2 /\ t1 = t2.
Proof.
  induction l1 as [|a l1 IH]; intros l2 t1 t2 H H1 H2.
  - destruct l2 as [|b l2]; simpl in H.
    + by injection H as <-.
    + injection H as <- ->. exfalso. apply H1, in_or_app. right. by left.
  - destruct l2 as [|b l2]; simpl in H.
    + injection H as -> <-. exfalso. apply H2, in_or_app. right. by left.
    + injection H as <- H. destruct (IH _ _ _ H H1 H2) as [-> ->]. done.
Qed.

Lemma split_name_numeral (c1 : list ascii) : forall c2 d1 d2,
  c1 ++ d1 = c2 ++ d2 ->
  forallb is_upper c1 = true -> forallb is_upper c2 = true ->
  forallb is_numeral_char d1 = true -> forallb is_numeral_char d2 = true ->
  c1 = c2 /\ d1 = d2.
Proof.
  assert (Hdisj : forall a, is_upper a = true -> is_numeral_char a = true -> False).
  { intros a. destruct a as [[] [] [] [] [] [] [] []]; vm_compute; congruence. }
  induction c1 as [|a c1 IH]; intros c2 d1 d2 H U1 U2 N1 N2.
  - destruct c2 as [|b c2]; [done|]. simpl in *. subst d1.
    simpl in N1. apply andb_prop in N1 as [N1 _]. apply andb_prop in U2 as [U2 _].
    destruct (Hdisj b U2 N1).
  - destruct c2 as [|b c2]; simpl in *.
    + subst d2. simpl in N2. apply andb_prop in N2 as [N2 _].
      apply andb_prop in U1 as [U1 _]. destruct (Hdisj a U1 N2).
    + injection H as <- H. apply andb_prop in U1 as [_ U1].
      apply andb_prop in U2 as [_ U2].
      destruct (IH _ _ _ H U1 U2 N1 N2) as [-> ->]. done.
Qed.

Lemma no_quote_in_rest (c d : list ascii) :
  forallb is_upper c = true -> forallb is_numeral_char d = true ->
  ~ In "'"%char ("!"%char :: c ++ d).
Proof.
  intros U N [H|H]; [discriminate|].
  apply in_app_or in H as [H|H].
  - rewrite forallb_forall in U. specialize (U _ H). discriminate.
  - rewrite forallb_forall in N. specialize (N _ H). discriminate.
Qed.

End Addresses.

(** X27.  An address names one cell: when [address] returns the same
    text for two cells, the cells have the same row, the same column and
    worksheet names that print the same (the same name, or [None] and
    the name spelt None), whatever characters the names contain. *)
Theorem SingleCellOperand_address_injective
    fuel1 fuel2 row1 column1 ws1 row2 column2 ws2 a :
  SingleCellOperand_address fuel1 row1 column1 ws1 = Some (Ok a) ->
  SingleCellOperand_address fuel2 row2 column2 ws2 = Some (Ok a) ->
  row1 = row2 /\ column1 = column2 /\ format_s ws1 = format_s ws2.
Proof.
  unfold SingleCellOperand_address.
  destruct (col_index_to_str fuel1 column1) as [[col1|]|] eqn:E1; try done.
  destruct (col_index_to_str fuel2 column2) as [[col2|]|] eqn:E2; try done.
  intros [= <-] [= H].
  apply col_index_to_str_result in E1 as [U1 W1].
  apply col_index_to_str_result in E2 as [U2 W2].
  destruct (format_d_numeral row1) as [N1 _].
  destruct (format_d_numeral row2) as [N2 _].
  apply (f_equal list_ascii_of_string) in H.
  rewrite !list_ascii_of_string_app in H. simpl in H. symmetry in H.
  apply split_at_last in H as [Hws Hrest];
    [|by apply no_quote_in_rest..].
  injection Hrest as Hrest.
  apply split_name_numeral in Hrest as [Hcol Hdec]; [|done..].
  split; [|split].
  - apply format_d_inj.
    rewrite <- (string_of_list_ascii_of_string (format_d row1)),
            <- (string_of_list_ascii_of_string (format_d row2)).
    by rewrite Hdec.
  - rewrite <- W1, <- W2. by rewrite Hcol.
  - rewrite <- (string_of_list_ascii_of_string (format_s ws1)),
            <- (string_of_list_ascii_of_string (format_s ws2)).
    by rewrite Hws.
Qed.

Lemma SingleCellOperand_address_injective_witness :
  12 = 12 /\ 28 = 28
  /\ format_s (Some "It's"%string) = format_s (Some "It's"%string).
Proof.
  apply (SingleCellOperand_address_injective 5 9 12 28 (Some "It's"%string)
           12 28 (Some "It's"%string) "'It's'!AB12"%string); reflexivity.
Defined.

(** X28.  The address of a range whose row bound is open cannot be
    printed: with [row1] or [row2] at [None], and columns that are open
    or not negative, [address] raises [TypeError], while an open column
    bound alone prints as an empty column name without any error. *)
Theorem CellRangeOperand_address_open_bounds
    fuel row1 column1 row2 column2 ws_name :
  (forall c, column1 = Some c -> 0 <= c /\ (Z.to_nat c < fuel)%nat) ->
  (forall c, column2 = Some c -> 0 <= c /\ (Z.to_nat c < fuel)%nat) ->
  (row1 = None \/ row2 = None ->
   CellRangeOperand_address fuel row1 column1 row2 column2 ws_name
   = Some (Raise TypeError))
  /\ (forall r1 r2,
        row1 = Some r1 -> row2 = Some r2 ->
        exists col1 col2,
          col_index_to_str_bound fuel column1 = Some (Ok col1)
          /\ col_index_to_str_bound fuel column2 = Some (Ok col2)
          /\ (column1 = None -> col1 = EmptyString)
          /\ (column2 = None -> col2 = EmptyString)
          /\ CellRangeOperand_address fuel row1 column1 row2 column2 ws_name
             = Some (Ok ("'" +:+ format_s ws_name +:+ "'!" +:+ col1
                         +:+ format_d r1 +:+ ":" +:+ col2 +:+ format_d r2))).
Proof.
  intros H1 H2.
  assert (Hcol : forall column,
            (forall c, column = Some c -> 0 <= c /\ (Z.to_nat c < fuel)%nat) ->
            exists col, col_index_to_str_bound fuel column = Some (Ok col)
                        /\ (column = None -> col = EmptyString)).
  { intros [c|] Hc; simpl.
    - destruct (Hc c eq_refl) as [Hc0 Hcf].
      destruct (loop_terminates fuel c [] Hc0 Hcf) as (ds & Hl & _).
      unfold col_index_to_str. rewrite Hl. eexists. split; [done|]. done.
    - exists EmptyString. done. }
  destruct (Hcol column1 H1) as (col1 & E1 & N1).
  destruct (Hcol column2 H2) as (col2 & E2 & N2).
  unfold CellRangeOperand_address. rewrite E1, E2. split.
  - intros [-> | ->]; [done|]. by destruct row1.
  - intros r1 r2 -> ->. by exists col1, col2.
Qed.

Lemma CellRangeOperand_address_open_bounds_witness :
  CellRangeOperand_address 10 None (Some 1) None (Some 1) (Some "S"%string)
  = Some (Raise TypeError).
Proof.
  apply (proj1 (CellRangeOperand_address_open_bounds 10 None (Some 1) None
                  (Some 1) (Some "S"%string)
                  ltac:(intros c [= <-]; simpl; lia)
                  ltac:(intros c [= <-]; simpl; lia))).
  by left.
Defined.
